(** * scripts/sync-release-to-supabase.js: release synchronisation job

    A shallow embedding of the script that copies the installer assets of a
    GitHub release into the [app_versions] table, and the properties of its
    asset filter, attribute derivers, hash resolver and persistence writer.

    Strings.  A JavaScript string is a sequence of UTF-16 code units.  The
    embedding covers the strings whose code units are all below 256 and
    represents them as [string], one [ascii] per code unit.  The built-in
    string methods the script calls ([includes], [split], [replace], [trim],
    [toLowerCase]) are defined on that representation. *)

From Stdlib Require Import ZArith Ascii String List Bool Lia DecimalString.
From stdpp Require Import gmap strings list fin_maps.

Local Open Scope Z_scope.

(** ** String.prototype methods *)

Module JsString.

(** The line feed, written ['\n'] in the source. *)
Definition LF : string := String (ascii_of_nat 10) "".

(** [startsWith pat s]: [pat] occurs in [s] at position 0. *)
Fixpoint startsWith (pat s : string) : bool :=
  match pat, s with
  | EmptyString, _ => true
  | String _ _, EmptyString => false
  | String p pat', String c s' => if Ascii.eqb p c then startsWith pat' s' else false
  end.

(** [s.includes(pat)] *)
Fixpoint includes (s pat : string) : bool :=
  if startsWith pat s then true
  else match s with
       | EmptyString => false
       | String _ s' => includes s' pat
       end.

(** [s.slice(n)] for [0 <= n]. *)
Fixpoint slice (n : nat) (s : string) : string :=
  match n, s with
  | O, _ => s
  | S _, EmptyString => EmptyString
  | S n', String _ s' => slice n' s'
  end.

(** The text before and the text after the first occurrence of [sep] in
    [s], when there is one. *)
Fixpoint cut (sep s : string) : option (string * string) :=
  if startsWith sep s then Some (EmptyString, slice (String.length sep) s)
  else match s with
       | EmptyString => None
       | String c s' =>
           match cut sep s' with
           | Some (a, b) => Some (String c a, b)
           | None => None
           end
       end.

(** [s.replace(pat, rep)] with a string pattern: only the first
    occurrence is replaced ([rep] holds no [$] pattern in the script). *)
Definition replace (pat rep s : string) : string :=
  match cut pat s with
  | Some (a, b) => a +:+ rep +:+ b
  | None => s
  end.

(** The pieces of [s] between successive occurrences of a non-empty
    separator.  Each occurrence consumes at least one code unit, so
    [String.length s] rounds are enough ([split_loop_enough]). *)
Fixpoint split_loop (fuel : nat) (sep s : string) : list string :=
  match fuel with
  | O => [s]
  | S fuel' =>
      match cut sep s with
      | Some (a, b) => a :: split_loop fuel' sep b
      | None => [s]
      end
  end.

Fixpoint units (s : string) : list string :=
  match s with
  | EmptyString => []
  | String c s' => String c EmptyString :: units s'
  end.

(** [s.split(sep)]; an empty separator splits into code units. *)
Definition split (sep s : string) : list string :=
  match sep with
  | EmptyString => units s
  | String _ _ => split_loop (String.length s) sep s
  end.

(** White space and line terminators below 256: TAB, LF, VT, FF, CR,
    SP and NBSP. *)
Definition isWhiteSpace (c : ascii) : bool :=
  let n := nat_of_ascii c in
  ((9 <=? n) && (n <=? 13) || (n =? 32) || (n =? 160))%nat.

Fixpoint trimStart (s : string) : string :=
  match s with
  | EmptyString => EmptyString
  | String c s' => if isWhiteSpace c then trimStart s' else s
  end.

Fixpoint trimEnd (s : string) : string :=
  match s with
  | EmptyString => EmptyString
  | String c s' =>
      match trimEnd s' with
      | EmptyString => if isWhiteSpace c then EmptyString else String c EmptyString
      | t => String c t
      end
  end.

(** [s.trim()] *)
Definition trim (s : string) : string := trimEnd (trimStart s).

(** Lower-case mapping of one code unit below 256: [A-Z] and the
    Latin-1 capitals U+00C0..U+00DE (U+00D7 is the multiplication
    sign) move up by 32. *)
Definition lowerUnit (c : ascii) : ascii :=
  let n := nat_of_ascii c in
  if ((65 <=? n) && (n <=? 90)
      || (192 <=? n) && (n <=? 222) && negb (n =? 215))%nat
  then ascii_of_nat (n + 32) else c.

(** [s.toLowerCase()] *)
Fixpoint toLowerCase (s : string) : string :=
  match s with
  | EmptyString => EmptyString
  | String c s' => String (lowerUnit c) (toLowerCase s')
  end.

(** The last code unit of a string. *)
Fixpoint lastUnit (s : string) : option ascii :=
  match s with
  | EmptyString => None
  | String c EmptyString => Some c
  | String _ s' => lastUnit s'
  end.

(** Truthiness of a string value: every string but the empty one. *)
Definition truthy (s : string) : bool :=
  match s with EmptyString => false | String _ _ => true end.

(** [s] has an occurrence of [pat]. *)
Definition occurs (pat s : string) : Prop :=
  ∃ a b, s = a +:+ pat +:+ b.

(** [a] and [b] are the text before and after the first occurrence of
    [sep] in [s]. *)
Definition first_occurrence (sep s a b : string) : Prop :=
  s = a +:+ sep +:+ b
  ∧ ∀ a' b', s = a' +:+ sep +:+ b' → (String.length a <= String.length a')%nat.

End JsString.

Import JsString.

(** ** Data model *)

(** An asset of a release, as the GitHub REST API returns it. *)
Record asset := {
  a_name : string;
  a_id : Z;
  a_browser_download_url : string;
  a_size : Z
}.

(** A release; [null] fields are [None]. *)
Record release := {
  r_tag_name : string;
  r_name : option string;
  r_id : Z;
  r_draft : bool;
  r_body : option string;
  r_published_at : option string;
  r_created_at : string;
  r_assets : list asset
}.

(** The object [versionData] that [processAsset] upserts: one row of
    [app_versions]. *)
Record versionData := {
  version : string;
  platform : string;
  architecture : string;
  file_name : string;
  download_url : string;
  file_size : Z;
  sha512 : string;
  release_notes : string;
  github_release_id : Z;
  github_asset_id : Z;
  created_at : string;
  updated_at : string;
  is_latest : bool
}.

(** The conflict target of the upsert, [version,platform,architecture]:
    the unique key of a row of [app_versions]. *)
Definition version_key : Type := string * string * string.

Definition key_version (k : version_key) : string := k.1.1.
Definition key_platform (k : version_key) : string := k.1.2.
Definition key_architecture (k : version_key) : string := k.2.

Definition key_of (vd : versionData) : version_key :=
  (version vd, platform vd, architecture vd).

(** The columns of a row outside its key; the key columns of a row are
    the key it is stored under. *)
Record row := {
  row_file_name : string;
  row_download_url : string;
  row_file_size : Z;
  row_sha512 : string;
  row_release_notes : string;
  row_github_release_id : Z;
  row_github_asset_id : Z;
  row_created_at : string;
  row_updated_at : string;
  row_is_latest : bool
}.

Definition row_of (vd : versionData) : row :=
  {| row_file_name := file_name vd;
     row_download_url := download_url vd;
     row_file_size := file_size vd;
     row_sha512 := sha512 vd;
     row_release_notes := release_notes vd;
     row_github_release_id := github_release_id vd;
     row_github_asset_id := github_asset_id vd;
     row_created_at := created_at vd;
     row_updated_at := updated_at vd;
     row_is_latest := is_latest vd |}.

(** The table [app_versions]: its rows under their unique key. *)
Abbreviation table := (gmap version_key row).

(** At most one row per (platform, architecture) pair is the latest. *)
Definition single_latest (db : table) : Prop :=
  ∀ k1 k2 row1 row2,
    db !! k1 = Some row1 → db !! k2 = Some row2 →
    row_is_latest row1 = true → row_is_latest row2 = true →
    key_platform k1 = key_platform k2 → key_architecture k1 = key_architecture k2 →
    k1 = k2.

(** ** Errors and the outside world *)

(** The [Error] objects the script throws. *)
Inductive error :=
| MissingCredentials
| ReleaseNotFound (tag : string)
| GitHubApiError (status : Z) (statusText : string)
| YmlFetchFailed (status : Z) (statusText : string)
| Sha512NotFound (fileName : string)
| UpsertFailed (fileName message : string)
| TypeError (property : string).

Definition decimal (z : Z) : string := NilZero.string_of_int (Z.to_int z).

Definition error_message (e : error) : string :=
  match e with
  | MissingCredentials => "Missing Supabase credentials"
  | ReleaseNotFound tag => "Release not found: " +:+ tag
  | GitHubApiError st txt => "GitHub API error: " +:+ decimal st +:+ " " +:+ txt
  | YmlFetchFailed st txt => "Failed to fetch yml file: " +:+ decimal st +:+ " " +:+ txt
  | Sha512NotFound f => "SHA512 not found in yml for " +:+ f
  | UpsertFailed f msg => "Failed to upsert " +:+ f +:+ ": " +:+ msg
  | TypeError p => "Cannot read properties of undefined (reading '" +:+ p +:+ "')"
  end.

Inductive result (A : Type) :=
| Ok (a : A)
| Throw (e : error).
Arguments Ok {A} a.
Arguments Throw {A} e.

(** A [fetch] response; [payload] is what [json()] or [text()] yields. *)
Record response (A : Type) := {
  status : Z;
  statusText : string;
  payload : A
}.
Arguments status {A} _.
Arguments statusText {A} _.
Arguments payload {A} _.

(** [response.ok]: the status is in the range 200 to 299. *)
Definition ok {A} (r : response A) : bool :=
  (200 <=? status r) && (status r <=? 299).

(** What the script observes of GitHub, the clock and Supabase: the
    responses to the three requests, the time at which the record of an
    asset is built, the error of an upsert, if any, and whether the update
    for a key fails. *)
Record world := {
  releaseById : string → response release;
  releaseByTag : string → response release;
  assetContent : Z → response string;
  now : asset → string;
  upsertError : versionData → option string;
  updateFails : version_key → bool
}.

(** The environment variables read at start-up; an unset one is [None]. *)
Record env := {
  SUPABASE_URL : option string;
  SUPABASE_SERVICE_KEY : option string;
  RELEASE_TAG : option string;
  RELEASE_ID : option string;
  MANUAL_TRIGGER : option string
}.

Definition isManualTrigger (e : env) : bool :=
  bool_decide (MANUAL_TRIGGER e = Some "true").

(** Truthiness of a value that is a string or [undefined]. *)
Definition defined (o : option string) : bool :=
  match o with Some s => truthy s | None => false end.

(** A value that is a string or [undefined], inside a template literal. *)
Definition interpolate (o : option string) : string :=
  default "undefined" o.

(** ** Computations over the table that may throw *)

Definition M (A : Type) : Type := table → result A * table.

Definition ret {A} (a : A) : M A := λ db, (Ok a, db).
Definition throw {A} (e : error) : M A := λ db, (Throw e, db).
Definition bind {A B} (c : M A) (k : A → M B) : M B :=
  λ db, match c db with
        | (Ok a, db') => k a db'
        | (Throw e, db') => (Throw e, db')
        end.
Definition lift {A} (r : result A) : M A := λ db, (r, db).

Notation "'let*' x ':=' c 'in' k" := (bind c (λ x, k))
  (at level 10, x name, c at level 100, k at level 200).

(** ** The script *)

(** [fetchReleaseById], lines 67-85. *)
Definition fetchReleaseById (w : world) (releaseId : string) : result release :=
  let response := releaseById w releaseId in
  if negb (ok response)
  then Throw (GitHubApiError (status response) (statusText response))
  else Ok (payload response).

(** [fetchReleaseByTag], lines 87-109; [None] is [null]. *)
Definition fetchReleaseByTag (w : world) (tag : string) : result (option release) :=
  let response := releaseByTag w tag in
  if negb (ok response) then
    if status response =? 404 then Ok None
    else Throw (GitHubApiError (status response) (statusText response))
  else Ok (Some (payload response)).

Definition appExtensions : list string := [".dmg"; ".exe"; ".AppImage"; ".deb"; ".rpm"].
Definition excludedPatterns : list string :=
  [".blockmap"; ".yml"; ".yaml"; ".json"; ".txt"; ".md"].

(** [isAppAsset], lines 111-122. *)
Definition isAppAsset (a : asset) : bool :=
  if existsb (λ pattern, includes (toLowerCase (a_name a)) pattern) excludedPatterns
  then false
  else existsb (λ ext, includes (toLowerCase (a_name a)) ext) appExtensions.

(** [detectPlatform], lines 169-174. *)
Definition detectPlatform (fileName : string) : string :=
  if includes fileName ".dmg" then "darwin"
  else if includes fileName ".exe" then "win32"
  else if includes fileName ".AppImage" || includes fileName ".deb" then "linux"
  else "unknown".

(** [detectArchitecture], lines 176-181. *)
Definition detectArchitecture (fileName : string) : string :=
  if includes fileName "arm64" then "arm64"
  else if includes fileName "x64" || includes fileName "x86_64" then "x64"
  else if includes fileName "ia32" || includes fileName "i386" then "ia32"
  else "x64".

(** The loop of lines 215-229 followed by the [throw] of line 241: the
    lines from index [i] on, [lines[i + 1]] being the head of [rest]. *)
Fixpoint scanLines (assetName : string) (lines : list string) : result string :=
  match lines with
  | [] => Throw (Sha512NotFound assetName)
  | line :: rest =>
      if includes line ("url: " +:+ assetName) then
        match rest with
        | next :: _ =>
            if includes next "sha512:" then
              match split "sha512:" next !! 1%nat with
              | Some piece => Ok (trim piece)
              | None => Throw (TypeError "trim")
              end
            else scanLines assetName rest
        | [] => scanLines assetName rest
        end
      else scanLines assetName rest
  end.

(** Lines 212-241: from the manifest text to the hash. *)
Definition sha512FromContent (assetName content : string) : result string :=
  scanLines assetName (split LF content).

(** [getSHA512FromYml], lines 183-246; the [catch] rethrows. *)
Definition getSHA512FromYml (w : world) (a : asset) (rel : release) : result string :=
  let assetName := a_name a in
  let assetPlatform := if includes assetName "arm64" then "arm64" else "x64" in
  match find (λ a', bool_decide (a_name a' = "latest-" +:+ assetPlatform +:+ "-mac.yml"))
             (r_assets rel) with
  | Some ymlAsset =>
      let ymlResponse := assetContent w (a_id ymlAsset) in
      if negb (ok ymlResponse)
      then Throw (YmlFetchFailed (status ymlResponse) (statusText ymlResponse))
      else sha512FromContent assetName (payload ymlResponse)
  | None => Throw (Sha512NotFound (a_name a))
  end.

(** [a || b] on values that are strings or [null]. *)
Definition orElse (o : option string) (d : string) : string :=
  match o with
  | Some s => if truthy s then s else d
  | None => d
  end.

(** The object literal of lines 134-148. *)
Definition buildVersionData (w : world) (a : asset) (rel : release) (hash : string)
  : versionData :=
  {| version := replace "v" "" (r_tag_name rel);
     platform := detectPlatform (a_name a);
     architecture := detectArchitecture (a_name a);
     file_name := a_name a;
     download_url := a_browser_download_url a;
     file_size := a_size a;
     sha512 := hash;
     release_notes := orElse (r_body rel) ("Version " +:+ r_tag_name rel);
     github_release_id := r_id rel;
     github_asset_id := a_id a;
     created_at := orElse (r_published_at rel) (r_created_at rel);
     updated_at := now w a;
     is_latest := true |}.

(** [upsert(versionData, { onConflict: 'version,platform,architecture' })]:
    a row with the same key is overwritten, otherwise one is added. *)
Definition upsert (w : world) (vd : versionData) : M (option string) :=
  λ db, match upsertError w vd with
        | Some message => (Ok (Some message), db)
        | None => (Ok None, <[key_of vd := row_of vd]> db)
        end.

(** The assignment [{ is_latest: false }]. *)
Definition demote (r : row) : row :=
  {| row_file_name := row_file_name r;
     row_download_url := row_download_url r;
     row_file_size := row_file_size r;
     row_sha512 := row_sha512 r;
     row_release_notes := row_release_notes r;
     row_github_release_id := row_github_release_id r;
     row_github_asset_id := row_github_asset_id r;
     row_created_at := row_created_at r;
     row_updated_at := row_updated_at r;
     row_is_latest := false |}.

(** The filter [.eq('platform', p).eq('architecture', a).neq('version', v)]. *)
Definition selected (p a v : string) (k : version_key) : bool :=
  bool_decide (key_platform k = p) && bool_decide (key_architecture k = a)
  && negb (bool_decide (key_version k = v)).

(** [update({ is_latest: false })] under that filter; its outcome is not
    inspected by the script. *)
Definition updateNotLatest (w : world) (p a v : string) : M unit :=
  λ db, if updateFails w (v, p, a) then (Ok tt, db)
        else (Ok tt, map_imap (λ k r, Some (if selected p a v k then demote r else r)) db).

(** [processAsset], lines 124-167: the Hash Resolver, then the Persistence
    Writer (the upsert and the update of lines 150-164). *)
Definition processAsset (w : world) (a : asset) (rel : release) : M unit :=
  let* hash := lift (getSHA512FromYml w a rel) in
  let vd := buildVersionData w a rel hash in
  let* error := upsert w vd in
  match error with
  | Some message => throw (UpsertFailed (a_name a) message)
  | None =>
      updateNotLatest w (detectPlatform (a_name a)) (detectArchitecture (a_name a))
        (replace "v" "" (r_tag_name rel))
  end.

(** The loop of lines 47-53, with its counter. *)
Fixpoint processAssets (w : world) (rel : release) (l : list asset)
    (processedCount : nat) : M nat :=
  match l with
  | [] => ret processedCount
  | a :: rest =>
      if isAppAsset a then
        let* _ := processAsset w a rel in
        processAssets w rel rest (S processedCount)
      else processAssets w rel rest processedCount
  end.

(** The [try] block of [syncReleaseToSupabase], lines 13-60. *)
Definition syncTry (w : world) (e : env) : M nat :=
  if negb (defined (SUPABASE_URL e)) || negb (defined (SUPABASE_SERVICE_KEY e))
  then throw MissingCredentials
  else
    let* rel := lift (if defined (RELEASE_ID e) && negb (isManualTrigger e)
                 then match fetchReleaseById w (interpolate (RELEASE_ID e)) with
                      | Ok r => Ok (Some r)
                      | Throw err => Throw err
                      end
                 else fetchReleaseByTag w (interpolate (RELEASE_TAG e))) in
    match rel with
    | None => throw (ReleaseNotFound (interpolate (RELEASE_TAG e)))
    | Some rel =>
        if r_draft rel then ret 0%nat
        else processAssets w rel (r_assets rel) 0
    end.

(** How a run of the job ends: the exit code of the process and the error
    written to standard error, if any. *)
Record run := {
  exitCode : Z;
  failure : option error
}.

(** [syncReleaseToSupabase], lines 11-65: the [catch] logs the error and
    calls [process.exit(1)]. *)
Definition syncReleaseToSupabase (w : world) (e : env) (db : table) : run * table :=
  match syncTry w e db with
  | (Ok _, db') => ({| exitCode := 0; failure := None |}, db')
  | (Throw err, db') => ({| exitCode := 1; failure := Some err |}, db')
  end.

(** ** Derived notions used in the statements *)

(** The row that [processAsset] writes and the filter of its update. *)
Definition written_key (a : asset) (rel : release) : version_key :=
  (replace "v" "" (r_tag_name rel), detectPlatform (a_name a),
   detectArchitecture (a_name a)).

Definition demoteOthers (k : version_key) (db : table) : table :=
  map_imap (λ k' r, Some (if selected (key_platform k) (key_architecture k)
                                      (key_version k) k'
                          then demote r else r)) db.

(** Line [i] contains [url: <assetName>] and line [i + 1] contains
    [sha512:]. *)
Definition hashed_url_at (assetName : string) (lines : list string) (i : nat) : Prop :=
  ∃ l l', lines !! i = Some l ∧ lines !! S i = Some l'
          ∧ includes l ("url: " +:+ assetName) = true
          ∧ includes l' "sha512:" = true.

(** The release lookup of lines 24-30: by id when [RELEASE_ID] is set and
    the trigger is not manual, by tag otherwise. *)
Definition lookupRelease (w : world) (e : env) : result (option release) :=
  if defined (RELEASE_ID e) && negb (isManualTrigger e)
  then match fetchReleaseById w (interpolate (RELEASE_ID e)) with
       | Ok r => Ok (Some r)
       | Throw err => Throw err
       end
  else fetchReleaseByTag w (interpolate (RELEASE_TAG e)).

(** The name of the manifest that [getSHA512FromYml] looks for, line 189. *)
Definition manifestName (fileName : string) : string :=
  "latest-" +:+ (if includes fileName "arm64" then "arm64" else "x64") +:+ "-mac.yml".

(** Every code unit of [s] is white space. *)
Fixpoint blank (s : string) : bool :=
  match s with
  | EmptyString => true
  | String c s' => isWhiteSpace c && blank s'
  end.

(** [s] has white space at neither end. *)
Definition trimmed (s : string) : Prop :=
  (∀ c t, s = String c t → isWhiteSpace c = false)
  ∧ (∀ c, lastUnit s = Some c → isWhiteSpace c = false).

(** The same world with other answers to the lookup by id, or by tag. *)
Definition withReleaseById (f : string → response release) (w : world) : world :=
  {| releaseById := f; releaseByTag := releaseByTag w; assetContent := assetContent w;
     now := now w; upsertError := upsertError w; updateFails := updateFails w |}.

Definition withReleaseByTag (f : string → response release) (w : world) : world :=
  {| releaseById := releaseById w; releaseByTag := f; assetContent := assetContent w;
     now := now w; upsertError := upsertError w; updateFails := updateFails w |}.

(** ** A sample run: two releases of PhotoPick *)

Module Sample.

Definition dmg12 : asset :=
  {| a_name := "PhotoPick-1.2.0-x64.dmg"; a_id := 101;
     a_browser_download_url := "https://example.org/v1.2.0/PhotoPick-1.2.0-x64.dmg";
     a_size := 90000000 |}.
Definition yml12 : asset :=
  {| a_name := "latest-x64-mac.yml"; a_id := 102;
     a_browser_download_url := "https://example.org/v1.2.0/latest-x64-mac.yml";
     a_size := 400 |}.
Definition dmg13 : asset :=
  {| a_name := "PhotoPick-1.3.0-x64.dmg"; a_id := 201;
     a_browser_download_url := "https://example.org/v1.3.0/PhotoPick-1.3.0-x64.dmg";
     a_size := 91000000 |}.
Definition yml13 : asset :=
  {| a_name := "latest-x64-mac.yml"; a_id := 202;
     a_browser_download_url := "https://example.org/v1.3.0/latest-x64-mac.yml";
     a_size := 400 |}.

Definition release12 : release :=
  {| r_tag_name := "v1.2.0"; r_name := Some "PhotoPick 1.2.0"; r_id := 1;
     r_draft := false; r_body := Some "Faster import.";
     r_published_at := Some "2024-03-01T10:00:00Z";
     r_created_at := "2024-03-01T09:00:00Z"; r_assets := [dmg12; yml12] |}.
Definition release13 : release :=
  {| r_tag_name := "v1.3.0"; r_name := None; r_id := 2;
     r_draft := false; r_body := None;
     r_published_at := Some "2024-04-01T10:00:00Z";
     r_created_at := "2024-04-01T09:00:00Z"; r_assets := [dmg13; yml13] |}.

Definition manifest (v hash : string) : string :=
  "version: " +:+ v +:+ LF +:+ "files:" +:+ LF
  +:+ "  - url: PhotoPick-" +:+ v +:+ "-x64.dmg" +:+ LF
  +:+ "    sha512: " +:+ hash +:+ LF
  +:+ "    size: 90000000" +:+ LF
  +:+ "path: PhotoPick-" +:+ v +:+ "-x64.dmg" +:+ LF.

Definition missing {A} (a : A) : response A :=
  {| status := 404; statusText := "Not Found"; payload := a |}.
Definition found {A} (a : A) : response A :=
  {| status := 200; statusText := "OK"; payload := a |}.

Definition github : world :=
  {| releaseById := λ i,
       if bool_decide (i = "1") then found release12
       else if bool_decide (i = "2") then found release13
       else missing release12;
     releaseByTag := λ tag,
       if bool_decide (tag = "v1.2.0") then found release12
       else if bool_decide (tag = "v1.3.0") then found release13
       else missing release12;
     assetContent := λ i,
       if i =? 102 then found (manifest "1.2.0" "aGFzaDEy==")
       else if i =? 202 then found (manifest "1.3.0" "aGFzaDEz==")
       else missing "";
     now := λ _, "2024-04-01T10:05:00Z";
     upsertError := λ _, None;
     updateFails := λ _, false |}.

(** A manual run for a tag that has no release. *)
Definition manual : env :=
  {| SUPABASE_URL := Some "https://photopick.supabase.co";
     SUPABASE_SERVICE_KEY := Some "service-key";
     RELEASE_TAG := Some "v9.9.9";
     RELEASE_ID := None;
     MANUAL_TRIGGER := Some "true" |}.

(** An automatic run for a release id that does not exist. *)
Definition automatic : env :=
  {| SUPABASE_URL := Some "https://photopick.supabase.co";
     SUPABASE_SERVICE_KEY := Some "service-key";
     RELEASE_TAG := Some "v1.3.0";
     RELEASE_ID := Some "77";
     MANUAL_TRIGGER := None |}.

(** A manual run for the tag [v1.3.0], with a release id set as well. *)
Definition manual13 : env :=
  {| SUPABASE_URL := Some "https://photopick.supabase.co";
     SUPABASE_SERVICE_KEY := Some "service-key";
     RELEASE_TAG := Some "v1.3.0";
     RELEASE_ID := Some "2";
     MANUAL_TRIGGER := Some "true" |}.


(** A draft, and a release that holds no installer. *)
Definition draft14 : release :=
  {| r_tag_name := "v1.4.0"; r_name := None; r_id := 3;
     r_draft := true; r_body := None; r_published_at := None;
     r_created_at := "2024-05-01T09:00:00Z"; r_assets := [dmg13; yml13] |}.

Definition blockmap13 : asset :=
  {| a_name := "PhotoPick-1.3.0-x64.dmg.blockmap"; a_id := 203;
     a_browser_download_url := "https://example.org/v1.3.0/PhotoPick-1.3.0-x64.dmg.blockmap";
     a_size := 95000 |}.

Definition notes13 : release :=
  {| r_tag_name := "v1.3.0"; r_name := None; r_id := 4;
     r_draft := false; r_body := None; r_published_at := None;
     r_created_at := "2024-04-01T09:00:00Z"; r_assets := [yml13; blockmap13] |}.

(** An installer for Windows in a release of its own, which has no
    manifest named for macOS, and the same installer after the one for
    macOS in release 1.3.0, whose manifest does not list it. *)
Definition exe13 : asset :=
  {| a_name := "PhotoPick-Setup-1.3.0.exe"; a_id := 204;
     a_browser_download_url := "https://example.org/v1.3.0/PhotoPick-Setup-1.3.0.exe";
     a_size := 80000000 |}.

Definition windows13 : release :=
  {| r_tag_name := "v1.3.0"; r_name := None; r_id := 5;
     r_draft := false; r_body := None; r_published_at := None;
     r_created_at := "2024-04-01T09:00:00Z"; r_assets := [exe13] |}.

Definition mixed13 : release :=
  {| r_tag_name := "v1.3.0"; r_name := None; r_id := 2;
     r_draft := false; r_body := None;
     r_published_at := Some "2024-04-01T10:00:00Z";
     r_created_at := "2024-04-01T09:00:00Z"; r_assets := [dmg13; yml13; exe13] |}.

(** GitHub answering every tag with the given release. *)
Definition serving (rel : release) : world :=
  withReleaseByTag (λ _, found rel) github.

(** Supabase losing every update. *)
Definition lossy : world :=
  {| releaseById := releaseById github; releaseByTag := releaseByTag github;
     assetContent := assetContent github; now := now github;
     upsertError := upsertError github; updateFails := λ _, true |}.

(** A manual run for the tag [v1.3.0]. *)
Definition tagged13 : env :=
  {| SUPABASE_URL := Some "https://photopick.supabase.co";
     SUPABASE_SERVICE_KEY := Some "service-key";
     RELEASE_TAG := Some "v1.3.0";
     RELEASE_ID := None;
     MANUAL_TRIGGER := Some "true" |}.

End Sample.

(** ** The string methods on examples *)

Example includes_ex : includes "app-x64.exe" ".exe" = true.
Proof. reflexivity. Qed.
Example split_ex : split "," ("a,b," +:+ LF) = ["a"; "b"; LF].
Proof. reflexivity. Qed.
Example trim_ex : trim ("  ABC 1 " +:+ LF) = "ABC 1".
Proof. reflexivity. Qed.
Example lower_ex : toLowerCase "App-X64.DMG" = "app-x64.dmg".
Proof. reflexivity. Qed.
Example replace_ex : replace "v" "" "v1.2.0" = "1.2.0".
Proof. reflexivity. Qed.

(** ** Facts about the string methods *)

Section StringFacts.

Lemma app_cons c a b : String c a +:+ b = String c (a +:+ b).
Proof. reflexivity. Qed.

Lemma app_empty_l b : "" +:+ b = b.
Proof. reflexivity. Qed.

Lemma app_assoc_s a b c : (a +:+ b) +:+ c = a +:+ b +:+ c.
Proof. induction a as [|x a IH]; [done|]. rewrite !app_cons. by f_equal. Qed.

Lemma length_app_s a b :
  String.length (a +:+ b) = (String.length a + String.length b)%nat.
Proof. induction a as [|x a IH]; [done|]. rewrite app_cons. simpl. by f_equal. Qed.

Lemma startsWith_iff pat s : startsWith pat s = true ↔ ∃ b, s = pat +:+ b.
Proof.
  revert s. induction pat as [|p pat IH]; intros s; simpl.
  - split; [intros _; by exists s | done].
  - destruct s as [|c s].
    + split; [done | intros [b Hb]; by rewrite app_cons in Hb].
    + destruct (Ascii.eqb_spec p c) as [->|Hne].
      * rewrite IH. split; intros [b Hb]; exists b.
        -- rewrite app_cons. by f_equal.
        -- rewrite app_cons in Hb. by injection Hb.
      * split; [done | intros [b Hb]]. rewrite app_cons in Hb. congruence.
Qed.

Lemma startsWith_app pat b : startsWith pat (pat +:+ b) = true.
Proof. apply startsWith_iff. by exists b. Qed.

Lemma slice_app pat b : slice (String.length pat) (pat +:+ b) = b.
Proof. induction pat as [|p pat IH]; [by destruct b | by rewrite app_cons]. Qed.

(** [includes] decides [occurs]. *)
Lemma includes_iff s pat : includes s pat = true ↔ occurs pat s.
Proof.
  induction s as [|c s IH]; simpl.
  - destruct (startsWith pat "") eqn:Hp.
    + split; [intros _ | done]. apply startsWith_iff in Hp as [b Hb].
      exists "", b. by rewrite app_empty_l.
    + split; [done | intros (a & b & Hab)]. destruct a; [|done].
      rewrite app_empty_l in Hab. rewrite Hab, startsWith_app in Hp. done.
  - destruct (startsWith pat (String c s)) eqn:Hp.
    + split; [intros _ | done]. apply startsWith_iff in Hp as [b Hb].
      exists "", b. by rewrite app_empty_l.
    + rewrite IH. split; intros (a & b & Hab).
      * exists (String c a), b. rewrite app_cons. by f_equal.
      * destruct a as [|x a].
        -- rewrite app_empty_l in Hab. rewrite Hab, startsWith_app in Hp. done.
        -- rewrite app_cons in Hab. injection Hab as _ ->. by exists a, b.
Qed.

Lemma includes_false s pat : includes s pat = false ↔ ¬ occurs pat s.
Proof. rewrite <- includes_iff. by destruct (includes s pat). Qed.

Lemma includes_app s pat a b : includes s pat = true → includes (a +:+ s +:+ b) pat = true.
Proof.
  rewrite !includes_iff. intros (x & y & ->). exists (a +:+ x), (y +:+ b).
  by rewrite !app_assoc_s.
Qed.

(** [cut] finds the first occurrence. *)
Lemma cut_first sep s a b : first_occurrence sep s a b → cut sep s = Some (a, b).
Proof.
  revert s. induction a as [|x a IH]; intros s [-> Hmin].
  - rewrite app_empty_l.
    destruct (sep +:+ b) eqn:E; simpl; rewrite <- ?E, startsWith_app;
      by rewrite slice_app.
  - rewrite app_cons. simpl.
    destruct (startsWith sep (String x (a +:+ sep +:+ b))) eqn:Hp.
    + apply startsWith_iff in Hp as [b' Hb'].
      specialize (Hmin "" b'). rewrite app_empty_l, app_cons in Hmin.
      specialize (Hmin Hb'). simpl in Hmin. lia.
    + rewrite (IH (a +:+ sep +:+ b)); [done|]. split; [done|].
      intros a' b' Hab. specialize (Hmin (String x a') b').
      rewrite !app_cons, Hab in Hmin. specialize (Hmin eq_refl). simpl in Hmin. lia.
Qed.

Lemma cut_Some sep s a b : cut sep s = Some (a, b) → first_occurrence sep s a b.
Proof.
  revert a b. induction s as [|c s IH]; intros a b; simpl.
  - destruct (startsWith sep "") eqn:Hp; [|done].
    intros [= <- <-]. apply startsWith_iff in Hp as [b' Hb'].
    destruct sep; [|done]. split; [done | intros; simpl; lia].
  - destruct (startsWith sep (String c s)) eqn:Hp.
    + intros [= <- <-]. apply startsWith_iff in Hp as [b' Hb'].
      split; [|intros; simpl; lia].
      rewrite app_empty_l, Hb' at 1. f_equal.
      by rewrite Hb', slice_app.
    + destruct (cut sep s) as [[a0 b0]|] eqn:Hc; [|done].
      intros [= <- <-]. destruct (IH a0 b0 eq_refl) as [-> Hmin].
      split; [by rewrite app_cons|]. intros a' b' Hab. destruct a' as [|x a'].
      * rewrite app_empty_l in Hab. rewrite Hab, startsWith_app in Hp. done.
      * rewrite app_cons in Hab. injection Hab as _ Hab.
        specialize (Hmin a' b' Hab). simpl. lia.
Qed.

Lemma cut_None sep s : cut sep s = None ↔ includes s sep = false.
Proof.
  induction s as [|c s IH]; simpl.
  - by destruct (startsWith sep "").
  - destruct (startsWith sep (String c s)); [done|].
    rewrite <- IH. by destruct (cut sep s) as [[??]|].
Qed.

Lemma cut_includes sep s : includes s sep = true → ∃ a b, cut sep s = Some (a, b).
Proof.
  intros H. destruct (cut sep s) as [[a b]|] eqn:Hc; [by exists a, b|].
  apply cut_None in Hc. congruence.
Qed.

(** A string that contains [sep] has a first occurrence of it. *)
Lemma first_occurrence_exists sep s :
  includes s sep = true → ∃ a b, first_occurrence sep s a b.
Proof. intros (a & b & H%cut_Some)%cut_includes. by exists a, b. Qed.

Lemma cut_shorter c sep s a b :
  cut (String c sep) s = Some (a, b) → (String.length b < String.length s)%nat.
Proof.
  intros [-> _]%cut_Some. rewrite !length_app_s. simpl. lia.
Qed.

(** The rounds given to [split_loop] are enough: more change nothing. *)
Lemma split_loop_rounds c sep fuel fuel' s :
  (String.length s <= fuel)%nat → (String.length s <= fuel')%nat →
  split_loop fuel (String c sep) s = split_loop fuel' (String c sep) s.
Proof.
  revert fuel' s. induction fuel as [|fuel IH]; intros [|fuel'] s Hlen Hlen';
    try (destruct s; [done | simpl in *; lia]).
  cbn [split_loop]. destruct (cut (String c sep) s) as [[a b]|] eqn:Hc; [|done].
  f_equal. pose proof (cut_shorter _ _ _ _ _ Hc). apply IH; lia.
Qed.

Lemma split_loop_enough c sep fuel s :
  (String.length s <= fuel)%nat →
  split_loop fuel (String c sep) s =
    match cut (String c sep) s with
    | Some (a, b) => a :: split_loop (String.length b) (String c sep) b
    | None => [s]
    end.
Proof.
  intros Hlen. destruct fuel as [|fuel].
  - destruct s; [done | simpl in Hlen; lia].
  - cbn [split_loop]. destruct (cut (String c sep) s) as [[a b]|] eqn:Hc; [|done].
    f_equal. pose proof (cut_shorter _ _ _ _ _ Hc). apply split_loop_rounds; lia.
Qed.

(** The equation of [split] for a non-empty separator. *)
Lemma split_unfold c sep s :
  split (String c sep) s =
    match cut (String c sep) s with
    | Some (a, b) => a :: split (String c sep) b
    | None => [s]
    end.
Proof. unfold split. by rewrite split_loop_enough. Qed.

(** [trim] leaves no white space at either end. *)
Lemma trimStart_head s c t : trimStart s = String c t → isWhiteSpace c = false.
Proof.
  induction s as [|x s IH]; [done|]. cbn [trimStart].
  destruct (isWhiteSpace x) eqn:Hx; [done|]. by intros [= <- _].
Qed.

Lemma trimEnd_head c t : isWhiteSpace c = false → ∃ t', trimEnd (String c t) = String c t'.
Proof. intros Hc. cbn [trimEnd]. rewrite Hc. destruct (trimEnd t); by eexists. Qed.

Lemma trimEnd_last s c : lastUnit (trimEnd s) = Some c → isWhiteSpace c = false.
Proof.
  induction s as [|x s IH]; [done|]. cbn [trimEnd].
  destruct (trimEnd s) as [|y t] eqn:Ht.
  - destruct (isWhiteSpace x) eqn:Hx; [done|]. by intros [= <-].
  - exact IH.
Qed.

Lemma trim_clean s :
  (∀ c t, trim s = String c t → isWhiteSpace c = false)
  ∧ (∀ c, lastUnit (trim s) = Some c → isWhiteSpace c = false).
Proof.
  unfold trim. split; [|intros c; apply trimEnd_last].
  intros c t. destruct (trimStart s) as [|x u] eqn:Hs; [done|].
  pose proof (trimStart_head _ _ _ Hs) as Hx.
  destruct (trimEnd_head x u Hx) as [t' ->]. by intros [= <- _].
Qed.

End StringFacts.

(** ** The attribute derivers and the asset filter *)

(** C7. [detectArchitecture] always answers one of [arm64], [x64] and
    [ia32]: [arm64] when the name contains [arm64]; otherwise [x64] when it
    contains [x64] or [x86_64]; otherwise [ia32] when it contains [ia32] or
    [i386]; otherwise [x64], as for [app-1.0.0.dmg]. *)
Theorem detectArchitecture_rules (fileName : string) :
  In (detectArchitecture fileName) ["arm64"; "x64"; "ia32"]
  ∧ (occurs "arm64" fileName → detectArchitecture fileName = "arm64")
  ∧ (¬ occurs "arm64" fileName →
     occurs "x64" fileName ∨ occurs "x86_64" fileName →
     detectArchitecture fileName = "x64")
  ∧ (¬ occurs "arm64" fileName → ¬ occurs "x64" fileName → ¬ occurs "x86_64" fileName →
     occurs "ia32" fileName ∨ occurs "i386" fileName →
     detectArchitecture fileName = "ia32")
  ∧ (¬ occurs "arm64" fileName → ¬ occurs "x64" fileName → ¬ occurs "x86_64" fileName →
     ¬ occurs "ia32" fileName → ¬ occurs "i386" fileName →
     detectArchitecture fileName = "x64")
  ∧ detectArchitecture "app-1.0.0.dmg" = "x64".
Proof.
  unfold detectArchitecture. repeat split.
  - repeat match goal with |- context [includes ?s ?p] => destruct (includes s p) end;
      simpl; auto.
  - intros H%includes_iff. by rewrite H.
  - intros H1%includes_false [H2%includes_iff | H2%includes_iff]; rewrite H1, H2; [done|].
    by rewrite orb_true_r.
  - intros H1%includes_false H2%includes_false H3%includes_false
      [H4%includes_iff | H4%includes_iff]; rewrite H1, H2, H3, H4; [done|].
    by rewrite orb_true_r.
  - intros H1%includes_false H2%includes_false H3%includes_false H4%includes_false
      H5%includes_false. by rewrite H1, H2, H3, H4, H5.
Qed.

Lemma lowerUnit_not_A c : Ascii.eqb "A" (lowerUnit c) = false.
Proof. by destruct c as [[] [] [] [] [] [] [] []]. Qed.

Lemma toLowerCase_no_A pat s : startsWith (String "A" pat) (toLowerCase s) = false.
Proof.
  destruct s as [|c s]; [done|]. cbn [toLowerCase startsWith].
  by rewrite lowerUnit_not_A.
Qed.

(** A lower-cased name never contains the mixed-case [.AppImage]. *)
Lemma toLowerCase_no_AppImage s : includes (toLowerCase s) ".AppImage" = false.
Proof.
  induction s as [|c s IH]; [done|].
  cbn [toLowerCase includes]. rewrite IH.
  change (startsWith ".AppImage" (String (lowerUnit c) (toLowerCase s)))
    with (if Ascii.eqb "." (lowerUnit c)
          then startsWith "AppImage" (toLowerCase s) else false).
  rewrite toLowerCase_no_A. by destruct (Ascii.eqb "." (lowerUnit c)).
Qed.

Lemma toLowerCase_app a b : toLowerCase (a +:+ b) = toLowerCase a +:+ toLowerCase b.
Proof. induction a as [|c a IH]; [done|]. rewrite app_cons. simpl. by rewrite IH. Qed.

(** What [isAppAsset] accepts. *)
Lemma isAppAsset_iff (a : asset) :
  isAppAsset a = true ↔
  existsb (λ pattern, includes (toLowerCase (a_name a)) pattern) excludedPatterns = false
  ∧ existsb (λ ext, includes (toLowerCase (a_name a)) ext) [".dmg"; ".exe"; ".deb"; ".rpm"]
    = true.
Proof.
  unfold isAppAsset, appExtensions.
  destruct (existsb _ excludedPatterns); [split; [done | by intros [? _]]|].
  cbn [existsb]. rewrite toLowerCase_no_AppImage. simpl.
  split; [by intros ? | by intros [_ ?]].
Qed.

(** C1. An asset named [PhotoPick-1.0.0.AppImage] has no excluded substring
    in its lower-cased name, which contains the case-folded [.appimage],
    and [isAppAsset] rejects it: the filter looks for the mixed-case
    [.AppImage] in the lower-cased name, where it never occurs, so a name
    is rejected unless it holds one of the other four extensions. *)
Theorem isAppAsset_rejects_AppImage :
  let a := {| a_name := "PhotoPick-1.0.0.AppImage"; a_id := 1;
              a_browser_download_url := ""; a_size := 1 |} in
  existsb (λ pattern, includes (toLowerCase (a_name a)) pattern) excludedPatterns = false
  ∧ includes (toLowerCase (a_name a)) (toLowerCase ".AppImage") = true
  ∧ isAppAsset a = false
  ∧ ∀ a' : asset,
      existsb (λ ext, includes (toLowerCase (a_name a')) ext)
        [".dmg"; ".exe"; ".deb"; ".rpm"] = false →
      isAppAsset a' = false.
Proof.
  repeat split. intros a' H.
  destruct (isAppAsset a') eqn:E; [|done].
  apply isAppAsset_iff in E as [_ E]. congruence.
Qed.

Lemma existsb_false {A} (f : A → bool) (l : list A) :
  existsb f l = false ↔ ∀ x, In x l → f x = false.
Proof.
  induction l as [|y l IH]; simpl.
  - split; [intros _ x [] | done].
  - rewrite orb_false_iff, IH. split.
    + intros [Hy Hl] x [<-|Hx]; auto.
    + intros H. split; [|intros x Hx]; apply H; auto.
Qed.

(** C9, as stated, fails on [app.DMG.exe]: the name contains [.DMG] and no
    excluded substring and is accepted, but its platform is [win32]. *)
Lemma uppercase_extension_win32 :
  let a := {| a_name := "app.DMG.exe"; a_id := 1;
              a_browser_download_url := ""; a_size := 1 |} in
  occurs ".DMG" (a_name a)
  ∧ (∀ p, In p excludedPatterns → includes (toLowerCase (a_name a)) p = false)
  ∧ (∀ p, In p excludedPatterns → includes (a_name a) p = false)
  ∧ isAppAsset a = true
  ∧ detectPlatform (a_name a) = "win32"
  ∧ ¬ (isAppAsset a = true ∧ detectPlatform (a_name a) = "unknown").
Proof.
  cbn zeta. repeat split.
  - by exists "app", ".exe".
  - by apply existsb_false.
  - by apply existsb_false.
  - by intros [_ ?].
Qed.

(** C9, amended.  An asset whose name contains a case variant [ext] of
    [.dmg], [.exe], [.deb] or [.rpm] (such as [.DMG] or [.EXE]), whose
    lower-cased name contains no excluded substring, and whose name
    contains none of [.dmg], [.exe], [.AppImage], [.deb] in exactly that
    case, is accepted by [isAppAsset] and given the platform [unknown] by
    [detectPlatform]. *)
Theorem uppercase_extension_unknown (a : asset) (ext : string) :
  In (toLowerCase ext) [".dmg"; ".exe"; ".deb"; ".rpm"] →
  occurs ext (a_name a) →
  (∀ p, In p excludedPatterns → includes (toLowerCase (a_name a)) p = false) →
  (∀ q, In q [".dmg"; ".exe"; ".AppImage"; ".deb"] → includes (a_name a) q = false) →
  isAppAsset a = true ∧ detectPlatform (a_name a) = "unknown".
Proof.
  intros Hext (x & y & Hname) Hexcl Hexact. split.
  - apply isAppAsset_iff. split; [by apply existsb_false|].
    apply existsb_exists. exists (toLowerCase ext). split; [done|].
    rewrite Hname, !toLowerCase_app. apply includes_iff. by eexists _, _.
  - unfold detectPlatform.
    rewrite !Hexact; [done | simpl; auto ..].
Qed.

Lemma uppercase_extension_unknown_witness :
  let a := {| a_name := "PhotoPick-1.0.0.DMG"; a_id := 7;
              a_browser_download_url := ""; a_size := 1024 |} in
  isAppAsset a = true ∧ detectPlatform (a_name a) = "unknown".
Proof.
  apply (uppercase_extension_unknown _ ".DMG").
  - simpl. auto.
  - by exists "PhotoPick-1.0.0", "".
  - by apply existsb_false.
  - by apply existsb_false.
Defined.

(** ** The version string and the release notes *)

Lemma replace_v_leading tag : replace "v" "" (String "v" tag) = tag.
Proof. unfold replace. simpl. by destruct tag. Qed.

Lemma replace_v_absent tag : ¬ occurs "v" tag → replace "v" "" tag = tag.
Proof.
  intros H%includes_false%cut_None. unfold replace. by rewrite H.
Qed.

(** [replace] removes the first [v] wherever it stands. *)
Lemma replace_v_first tag a b :
  first_occurrence "v" tag a b → replace "v" "" tag = a +:+ b.
Proof. intros H%cut_first. unfold replace. by rewrite H. Qed.

(** C4. For the tag [1.0.0-dev], which does not start with [v], the
    version written in the record is [1.0.0-de]: [replace('v', '')] removes
    the first [v] of the tag, not only a leading one. *)
Theorem version_of_tag_without_prefix (w : world) (a : asset) (hash : string) :
  let rel := {| r_tag_name := "1.0.0-dev"; r_name := None; r_id := 1;
                r_draft := false; r_body := None; r_published_at := None;
                r_created_at := "2024-01-01T00:00:00Z"; r_assets := [a] |} in
  startsWith "v" (r_tag_name rel) = false
  ∧ version (buildVersionData w a rel hash) = "1.0.0-de"
  ∧ version (buildVersionData w a rel hash) ≠ r_tag_name rel.
Proof. by repeat split. Qed.

Lemma key_of_build w a rel hash : key_of (buildVersionData w a rel hash) = written_key a rel.
Proof. reflexivity. Qed.

(** The three ways [processAsset] can end. *)
Lemma processAsset_cases w a rel db :
  (∃ e, processAsset w a rel db = (Throw e, db))
  ∨ ∃ hash,
      getSHA512FromYml w a rel = Ok hash
      ∧ upsertError w (buildVersionData w a rel hash) = None
      ∧ processAsset w a rel db =
          (Ok tt,
           if updateFails w (written_key a rel)
           then <[written_key a rel := row_of (buildVersionData w a rel hash)]> db
           else demoteOthers (written_key a rel)
                  (<[written_key a rel := row_of (buildVersionData w a rel hash)]> db)).
Proof.
  unfold processAsset, bind, lift, upsert, throw, updateNotLatest.
  destruct (getSHA512FromYml w a rel) as [hash|e]; [|left; by exists e].
  destruct (upsertError w (buildVersionData w a rel hash)) as [msg|] eqn:Hup.
  - left. by eexists.
  - right. exists hash. split; [done|]. split; [done|].
    rewrite key_of_build. unfold demoteOthers, written_key. simpl.
    by destruct (updateFails w _).
Qed.

Lemma selected_own k :
  selected (key_platform k) (key_architecture k) (key_version k) k = false.
Proof.
  unfold selected.
  rewrite (bool_decide_eq_true_2 (key_version k = key_version k)) by done.
  by rewrite andb_false_r.
Qed.

Lemma lookup_demoteOthers k k' db :
  demoteOthers k db !! k' =
    (λ r, if selected (key_platform k) (key_architecture k) (key_version k) k'
          then demote r else r) <$> db !! k'.
Proof. unfold demoteOthers. rewrite map_lookup_imap. by destruct (db !! k'). Qed.

(** After a successful [processAsset] the row it wrote is in the table. *)
Lemma processAsset_written w a rel db db' :
  processAsset w a rel db = (Ok tt, db') →
  ∃ hash, db' !! written_key a rel = Some (row_of (buildVersionData w a rel hash)).
Proof.
  intros Hrun. destruct (processAsset_cases w a rel db) as [[e He]|(hash & _ & _ & Hok)].
  { congruence. }
  rewrite Hok in Hrun. injection Hrun as <-. exists hash.
  destruct (updateFails w (written_key a rel)).
  - by rewrite lookup_insert_eq.
  - rewrite lookup_demoteOthers, lookup_insert_eq.
    cbn [fmap option_fmap option_map]. by rewrite selected_own.
Qed.

(** C10. When the body of the release is [null] or empty, the
    [release_notes] of the record built for any asset is ["Version "]
    followed by the whole tag name, and so is that of the row a successful
    [processAsset] leaves under the record's key. *)
Theorem release_notes_default (w : world) (a : asset) (rel : release) :
  r_body rel = None ∨ r_body rel = Some "" →
  (∀ hash, release_notes (buildVersionData w a rel hash) = "Version " +:+ r_tag_name rel)
  ∧ ∀ db db',
      processAsset w a rel db = (Ok tt, db') →
      ∃ r, db' !! written_key a rel = Some r
           ∧ row_release_notes r = "Version " +:+ r_tag_name rel.
Proof.
  intros Hbody.
  assert (∀ hash, release_notes (buildVersionData w a rel hash)
                  = "Version " +:+ r_tag_name rel) as Hnotes.
  { intros hash. simpl. by destruct Hbody as [-> | ->]. }
  split; [done|]. intros db db' [hash Hrow]%processAsset_written.
  exists (row_of (buildVersionData w a rel hash)). split; [done|]. apply Hnotes.
Qed.

(** ** The release lookup *)

Lemma ok_not_404 {A} (r : response A) : ok r = true → status r ≠ 404.
Proof. unfold ok. intros [H1 H2]%andb_true_iff. lia. Qed.

(** C6. [fetchReleaseByTag] returns [null] exactly when the response has
    status 404 and throws on every other response that is not [ok]; when
    the job takes the tag lookup and gets [null], it ends with the error
    ["Release not found: <tag>"] and exit code 1, the table untouched. *)
Theorem fetchReleaseByTag_null (w : world) (tag : string) :
  (fetchReleaseByTag w tag = Ok None ↔ status (releaseByTag w tag) = 404)
  ∧ (ok (releaseByTag w tag) = false → status (releaseByTag w tag) ≠ 404 →
     fetchReleaseByTag w tag =
       Throw (GitHubApiError (status (releaseByTag w tag))
                (statusText (releaseByTag w tag))))
  ∧ ∀ (e : env) (db : table),
      defined (SUPABASE_URL e) = true → defined (SUPABASE_SERVICE_KEY e) = true →
      defined (RELEASE_ID e) && negb (isManualTrigger e) = false →
      interpolate (RELEASE_TAG e) = tag →
      fetchReleaseByTag w tag = Ok None →
      syncReleaseToSupabase w e db =
        ({| exitCode := 1; failure := Some (ReleaseNotFound tag) |}, db)
      ∧ error_message (ReleaseNotFound tag) = "Release not found: " +:+ tag.
Proof.
  split; [|split].
  - unfold fetchReleaseByTag. split.
    + destruct (ok (releaseByTag w tag)) eqn:Hok; simpl; [done|].
      by destruct (Z.eqb_spec (status (releaseByTag w tag)) 404).
    + intros H404. destruct (ok (releaseByTag w tag)) eqn:Hok; simpl.
      * by apply ok_not_404 in Hok.
      * by rewrite H404.
  - unfold fetchReleaseByTag. intros -> Hne. simpl.
    by apply Z.eqb_neq in Hne as ->.
  - intros e db Hurl Hkey Hroute Htag Hnull. split; [|done].
    unfold syncReleaseToSupabase, syncTry, bind, lift, throw.
    by rewrite Hurl, Hkey, Hroute, Htag, Hnull.
Qed.

(** ** The hash resolver *)

(** Lines without the url of the asset are passed over. *)
Lemma scanLines_skip assetName pre lines :
  Forall (λ l, includes l ("url: " +:+ assetName) = false) pre →
  scanLines assetName (pre ++ lines) = scanLines assetName lines.
Proof.
  induction 1 as [|l pre Hl _ IH]; [done|].
  rewrite <- app_comm_cons. cbn [scanLines]. by rewrite Hl.
Qed.

(** The second piece of a line split at [sha512:]. *)
Lemma split_marker_second next a b :
  first_occurrence "sha512:" next a b →
  split "sha512:" next !! 1%nat =
    Some (match cut "sha512:" b with Some (m, _) => m | None => b end).
Proof.
  intros H%cut_first. rewrite split_unfold, H. cbn [lookup list_lookup].
  rewrite split_unfold. by destruct (cut "sha512:" b) as [[m c]|].
Qed.

(** On a url line followed by a [sha512:] line the loop returns. *)
Lemma scanLines_hit assetName line next rest a b :
  includes line ("url: " +:+ assetName) = true →
  first_occurrence "sha512:" next a b →
  scanLines assetName (line :: next :: rest) =
    Ok (trim (match cut "sha512:" b with Some (m, _) => m | None => b end)).
Proof.
  intros Hurl Hfirst. cbn [scanLines]. rewrite Hurl.
  assert (includes next "sha512:" = true) as ->.
  { destruct Hfirst as [-> _]. apply includes_iff. by exists a, b. }
  by rewrite (split_marker_second _ _ _ Hfirst).
Qed.

(** Otherwise it moves to the next line. *)
Lemma scanLines_miss assetName line rest :
  ¬ hashed_url_at assetName (line :: rest) 0 →
  scanLines assetName (line :: rest) = scanLines assetName rest.
Proof.
  intros Hno. cbn [scanLines].
  destruct (includes line ("url: " +:+ assetName)) eqn:Hurl; [|done].
  destruct rest as [|next rest]; [done|].
  destruct (includes next "sha512:") eqn:Hsha; [|done].
  destruct Hno. by exists line, next.
Qed.

(** The loop ends with a hash or with the error of line 241. *)
Lemma scanLines_result assetName lines :
  (∃ hash, scanLines assetName lines = Ok hash)
  ∨ scanLines assetName lines = Throw (Sha512NotFound assetName).
Proof.
  induction lines as [|line rest IH]; [by right|].
  cbn [scanLines]. destruct (includes line ("url: " +:+ assetName)); [|done].
  destruct rest as [|next rest]; [done|].
  destruct (includes next "sha512:") eqn:Hsha; [|done].
  destruct (cut_includes _ _ Hsha) as (a & b & Hcut%cut_Some).
  rewrite (split_marker_second _ _ _ Hcut). left. by eexists.
Qed.

(** It fails exactly when no url line is followed by a [sha512:] line. *)
Lemma scanLines_Throw_iff assetName lines :
  scanLines assetName lines = Throw (Sha512NotFound assetName)
  ↔ ∀ i, ¬ hashed_url_at assetName lines i.
Proof.
  induction lines as [|line rest IH].
  - split; [|done]. intros _ i (l & _ & Hl & _). by rewrite lookup_nil in Hl.
  - split.
    + intros Hthrow [|i].
      * intros (l & l' & [= <-] & Hl' & Hurl & Hsha).
        destruct rest as [|next rest]; [done|]. injection Hl' as <-.
        destruct (cut_includes _ _ Hsha) as (a & b & Hcut%cut_Some).
        by rewrite (scanLines_hit _ _ _ _ a b) in Hthrow.
      * intros (l & l' & Hl & Hl' & Hurl & Hsha).
        assert (¬ hashed_url_at assetName (line :: rest) 0) as Hno.
        { intros (l0 & l0' & [= <-] & Hl0' & Hurl0 & Hsha0).
          destruct rest as [|next rest]; [done|]. injection Hl0' as <-.
          destruct (cut_includes _ _ Hsha0) as (a & b & Hcut%cut_Some).
          by rewrite (scanLines_hit _ _ _ _ a b) in Hthrow. }
        rewrite (scanLines_miss _ _ _ Hno) in Hthrow.
        apply (proj1 IH Hthrow i). by exists l, l'.
    + intros Hall. rewrite (scanLines_miss _ _ _ (Hall 0%nat)). apply (proj2 IH).
      intros i (l & l' & Hl & Hl' & Hurl & Hsha). apply (Hall (S i)). by exists l, l'.
Qed.

(** With the manifest asset present and downloaded, [getSHA512FromYml] is
    [sha512FromContent] on its text. *)
Lemma getSHA512FromYml_manifest w a rel ymlAsset :
  find (λ a', bool_decide
               (a_name a' = "latest-"
                            +:+ (if includes (a_name a) "arm64" then "arm64" else "x64")
                            +:+ "-mac.yml"))
    (r_assets rel) = Some ymlAsset →
  ok (assetContent w (a_id ymlAsset)) = true →
  getSHA512FromYml w a rel =
    sha512FromContent (a_name a) (payload (assetContent w (a_id ymlAsset))).
Proof. intros Hfind Hok. unfold getSHA512FromYml. by rewrite Hfind, Hok. Qed.

(** C3, as stated, fails: the first url line of this manifest is followed
    by a line without [sha512:], and the resolver goes on to the second
    url line and returns its hash. *)
Lemma scan_goes_on_after_unhashed_url :
  let content := "url: app.exe" +:+ LF +:+ "size: 10" +:+ LF
                 +:+ "url: app.exe" +:+ LF +:+ "sha512: XYZ" in
  split LF content = ["url: app.exe"; "size: 10"; "url: app.exe"; "sha512: XYZ"]
  ∧ includes "url: app.exe" ("url: " +:+ "app.exe") = true
  ∧ includes "size: 10" "sha512:" = false
  ∧ sha512FromContent "app.exe" content = Ok "XYZ"
  ∧ ∀ e, sha512FromContent "app.exe" content ≠ Throw e.
Proof. by repeat split. Qed.

(** C3, amended.  When the first line containing [url: <assetName>] is
    followed by a line that does not contain [sha512:], the resolver does
    not stop there: it goes on scanning from the following line, and it
    fails, with "SHA512 not found", exactly when no line from there on
    contains [url: <assetName>] and is followed by a line containing
    [sha512:]; otherwise it returns a hash. *)
Theorem scan_resumes_after_unhashed_url
    (assetName content : string) (pre : list string) (line next : string)
    (rest : list string) :
  split LF content = pre ++ line :: next :: rest →
  Forall (λ l, includes l ("url: " +:+ assetName) = false) pre →
  includes line ("url: " +:+ assetName) = true →
  includes next "sha512:" = false →
  sha512FromContent assetName content = scanLines assetName (next :: rest)
  ∧ (sha512FromContent assetName content = Throw (Sha512NotFound assetName)
     ↔ ∀ i, ¬ hashed_url_at assetName (next :: rest) i)
  ∧ ((∀ i, ¬ hashed_url_at assetName (next :: rest) i)
     ∨ ∃ hash, sha512FromContent assetName content = Ok hash).
Proof.
  intros Hlines Hpre Hurl Hsha.
  assert (sha512FromContent assetName content = scanLines assetName (next :: rest)) as Heq.
  { unfold sha512FromContent. rewrite Hlines, scanLines_skip by done.
    apply scanLines_miss. intros (l & l' & [= <-] & [= <-] & _ & ?). congruence. }
  rewrite Heq. split; [done|]. split; [apply scanLines_Throw_iff|].
  destruct (scanLines_result assetName (next :: rest)) as [?|Hthrow]; [by right|].
  left. by apply scanLines_Throw_iff.
Qed.

Lemma scan_resumes_after_unhashed_url_witness :
  let content := "url: app.exe" +:+ LF +:+ "size: 10" +:+ LF +:+ "path: app.exe" in
  sha512FromContent "app.exe" content = scanLines "app.exe" ["size: 10"; "path: app.exe"]
  ∧ (sha512FromContent "app.exe" content = Throw (Sha512NotFound "app.exe")
     ↔ ∀ i, ¬ hashed_url_at "app.exe" ["size: 10"; "path: app.exe"] i)
  ∧ ((∀ i, ¬ hashed_url_at "app.exe" ["size: 10"; "path: app.exe"] i)
     ∨ ∃ hash, sha512FromContent "app.exe" content = Ok hash).
Proof.
  apply (scan_resumes_after_unhashed_url "app.exe" _ [] "url: app.exe");
    [reflexivity | constructor | reflexivity | reflexivity].
Defined.

(** C5, as stated, fails on a line with two markers: everything after the
    marker of [sha512: abc sha512: def] is [abc sha512: def], and the
    resolver returns [abc]. *)
Lemma hash_ends_at_second_marker :
  let content := "url: a.dmg" +:+ LF +:+ "sha512: abc sha512: def" in
  split LF content = ["url: a.dmg"; "sha512: abc sha512: def"]
  ∧ includes "url: a.dmg" ("url: " +:+ "a.dmg") = true
  ∧ first_occurrence "sha512:" "sha512: abc sha512: def" "" " abc sha512: def"
  ∧ sha512FromContent "a.dmg" content = Ok "abc"
  ∧ sha512FromContent "a.dmg" content ≠ Ok (trim " abc sha512: def").
Proof.
  cbn zeta. repeat split; try done. intros; simpl; lia.
Qed.

(** C5, amended.  When the first line containing [url: <assetName>] is
    followed by a line containing [sha512:], the resolver returns, trimmed
    of surrounding white space, the text after the first [sha512:] marker
    of that line up to its next [sha512:] marker, or up to the end of the
    line when it has no other; so [url: app-x64.exe] followed by
    [sha512: ABC123] gives exactly [ABC123]. *)
Theorem hash_after_first_url
    (assetName content : string) (pre : list string) (line next : string)
    (rest : list string) (a b : string) :
  split LF content = pre ++ line :: next :: rest →
  Forall (λ l, includes l ("url: " +:+ assetName) = false) pre →
  includes line ("url: " +:+ assetName) = true →
  first_occurrence "sha512:" next a b →
  (¬ occurs "sha512:" b → sha512FromContent assetName content = Ok (trim b))
  ∧ (∀ m c, first_occurrence "sha512:" b m c →
            sha512FromContent assetName content = Ok (trim m)).
Proof.
  intros Hlines Hpre Hurl Hfirst. unfold sha512FromContent.
  rewrite Hlines, scanLines_skip, (scanLines_hit _ _ _ _ a b) by done. split.
  - intros Hno%includes_false%cut_None. by rewrite Hno.
  - intros m c Hm%cut_first. by rewrite Hm.
Qed.

Lemma hash_after_first_url_witness :
  sha512FromContent "app-x64.exe"
    ("url: app-x64.exe" +:+ LF +:+ "sha512: ABC123" +:+ LF) = Ok "ABC123".
Proof.
  apply (hash_after_first_url "app-x64.exe" _ [] "url: app-x64.exe"
           "sha512: ABC123" [""] "" " ABC123").
  - reflexivity.
  - constructor.
  - reflexivity.
  - split; [reflexivity | intros; simpl; lia].
  - by apply includes_false.
Defined.

(** C8. The url line is matched by containment: a line naming a file whose
    name extends [assetName] contains [url: <assetName>] too.  In the
    manifest below the only line containing [url: app.exe] names
    [app.exe.blockmap], and resolving [app.exe] returns the hash on the
    line after it. *)
Theorem url_match_by_containment :
  (∀ assetName suffix before after : string,
     includes (before +:+ ("url: " +:+ assetName +:+ suffix) +:+ after)
       ("url: " +:+ assetName) = true)
  ∧ let content := "files:" +:+ LF +:+ "  - url: app.exe.blockmap" +:+ LF
                   +:+ "    sha512: BLOCKMAPHASH" +:+ LF +:+ "releaseDate: today" in
    filter (λ l, includes l ("url: " +:+ "app.exe") = true) (split LF content)
      = ["  - url: app.exe.blockmap"]
    ∧ sha512FromContent "app.exe" content = Ok "BLOCKMAPHASH".
Proof.
  split; [|by split].
  intros assetName suffix before after. apply includes_app, includes_iff.
  exists "", suffix. by rewrite app_empty_l, app_assoc_s.
Qed.

(** ** The persistence writer *)

Lemma single_latest_empty : single_latest ∅.
Proof. intros k1 k2 row1 row2 H. by rewrite lookup_empty in H. Qed.

(** A row that is still the latest after the update was in the table
    before it, as the latest, and either belongs to another (platform,
    architecture) pair or has the version of the update. *)
Lemma latest_after_demoteOthers k db k' r :
  demoteOthers k db !! k' = Some r → row_is_latest r = true →
  db !! k' = Some r
  ∧ (key_platform k' = key_platform k → key_architecture k' = key_architecture k →
     k' = k).
Proof.
  rewrite lookup_demoteOthers.
  destruct (db !! k') as [r0|] eqn:Hr0; [|done]. intros [= <-].
  unfold selected.
  destruct (bool_decide_reflect (key_platform k' = key_platform k)) as [Hp|Hp];
    destruct (bool_decide_reflect (key_architecture k' = key_architecture k)) as [Ha|Ha];
    destruct (bool_decide_reflect (key_version k' = key_version k)) as [Hv|Hv];
    simpl; try done.
  intros _. split; [done|]. intros _ _.
  destruct k' as [[v' p'] a'], k as [[v p] a].
  unfold key_platform, key_architecture, key_version in *. simpl in *. congruence.
Qed.

(** After the upsert and the update, the pair of the written row has that
    row as its only latest one, and the other pairs are as before. *)
Lemma single_latest_written k r db :
  single_latest db → single_latest (demoteOthers k (<[k := r]> db)).
Proof.
  intros Hone k1 k2 row1 row2 H1 H2 Hl1 Hl2 Hp Ha.
  destruct (latest_after_demoteOthers _ _ _ _ H1 Hl1) as [Hrow1 Hk1].
  destruct (latest_after_demoteOthers _ _ _ _ H2 Hl2) as [Hrow2 Hk2].
  destruct (decide (key_platform k1 = key_platform k
                    ∧ key_architecture k1 = key_architecture k)) as [[Hp1 Ha1]|Hother].
  - rewrite Hk1, Hk2 by congruence. done.
  - assert (k1 ≠ k) as Hne1 by (intros ->; by apply Hother).
    assert (k2 ≠ k) as Hne2.
    { intros ->. apply Hother. by rewrite Hp, Ha. }
    rewrite lookup_insert_ne in Hrow1 by done.
    rewrite lookup_insert_ne in Hrow2 by done.
    by apply (Hone k1 k2 row1 row2).
Qed.

(** The table after [processAsset], whichever way it ends, when the
    update is carried out. *)
Lemma processAsset_table w a rel db :
  updateFails w (written_key a rel) = false →
  (processAsset w a rel db).2 = db
  ∨ ∃ hash, (processAsset w a rel db).2 =
      demoteOthers (written_key a rel)
        (<[written_key a rel := row_of (buildVersionData w a rel hash)]> db).
Proof.
  intros Hupd. destruct (processAsset_cases w a rel db) as [[e ->]|(hash & _ & _ & ->)].
  - by left.
  - right. exists hash. by rewrite Hupd.
Qed.

(** One asset keeps the invariant, whichever way [processAsset] ends. *)
Lemma processAsset_keeps_single_latest w a rel db :
  updateFails w (written_key a rel) = false →
  single_latest db → single_latest (processAsset w a rel db).2.
Proof.
  intros Hupd Hone.
  destruct (processAsset_table w a rel db Hupd) as [-> | [hash ->]]; [done|].
  by apply single_latest_written.
Qed.

(** So does the loop over the assets of a release. *)
Lemma processAssets_keep_single_latest w rel l n db :
  (∀ k, updateFails w k = false) →
  single_latest db → single_latest (processAssets w rel l n db).2.
Proof.
  intros Hupd. revert n db. induction l as [|a l IH]; intros n db Hone; [done|].
  cbn [processAssets]. destruct (isAppAsset a); [|by apply IH].
  unfold bind.
  pose proof (processAsset_keeps_single_latest w a rel db (Hupd _) Hone) as Hone1.
  destruct (processAsset w a rel db) as [[[]|e] db1]; [by apply IH | done].
Qed.

(** X16.  The whole job keeps the invariant, however it ends: from a table with
    at most one latest row per (platform, architecture) pair, and updates
    that are carried out, the table the job leaves has at most one latest
    row per pair. *)
Lemma syncReleaseToSupabase_keeps_single_latest w e db :
  (∀ k, updateFails w k = false) →
  single_latest db → single_latest (syncReleaseToSupabase w e db).2.
Proof.
  intros Hupd Hone. unfold syncReleaseToSupabase.
  assert (single_latest (syncTry w e db).2) as Htry.
  { unfold syncTry, bind, lift, throw, ret.
    destruct (negb (defined (SUPABASE_URL e)) || negb (defined (SUPABASE_SERVICE_KEY e)));
      [done|].
    destruct (if defined (RELEASE_ID e) && negb (isManualTrigger e) then _ else _)
      as [[rel|]|err]; [|done..].
    destruct (r_draft rel); [done|]. by apply processAssets_keep_single_latest. }
  by destruct (syncTry w e db) as [[n|err] db'].
Qed.

(** C2. From a table with at most one latest row per (platform,
    architecture) pair, and an update that is carried out, the table after
    [processAsset] has at most one latest row per pair again.  When
    version 1.2.0 and then version 1.3.0 are processed for (darwin, x64),
    the 1.3.0 row is the latest and no other row of that pair is. *)
Theorem processAsset_single_latest (w : world) (db : table) :
  single_latest db → (∀ k, updateFails w k = false) →
  (∀ a rel, single_latest (processAsset w a rel db).2)
  ∧ ∀ a1 rel1 a2 rel2 db1 db2,
      written_key a1 rel1 = ("1.2.0", "darwin", "x64") →
      written_key a2 rel2 = ("1.3.0", "darwin", "x64") →
      processAsset w a1 rel1 db = (Ok tt, db1) →
      processAsset w a2 rel2 db1 = (Ok tt, db2) →
      ∃ r, db2 !! ("1.3.0", "darwin", "x64") = Some r
           ∧ row_is_latest r = true
           ∧ ∀ k r', db2 !! k = Some r' →
               key_platform k = "darwin" → key_architecture k = "x64" →
               row_is_latest r' = true → k = ("1.3.0", "darwin", "x64").
Proof.
  intros Hone Hupd.
  assert (∀ a rel db0, single_latest db0 → single_latest (processAsset w a rel db0).2)
    as Hstep.
  { intros a rel db0. by apply processAsset_keeps_single_latest. }
  split; [intros a rel; by apply Hstep|].
  intros a1 rel1 a2 rel2 db1 db2 Hk1 Hk2 Hrun1 Hrun2.
  pose proof (Hstep a1 rel1 db Hone) as Hone1. rewrite Hrun1 in Hone1.
  pose proof (Hstep a2 rel2 db1 Hone1) as Hone2. rewrite Hrun2 in Hone2.
  simpl in Hone2.
  destruct (processAsset_written _ _ _ _ _ Hrun2) as [hash Hrow]. rewrite Hk2 in Hrow.
  exists (row_of (buildVersionData w a2 rel2 hash)). split; [done|]. split; [done|].
  intros k r' Hr' Hp Ha Hl.
  by apply (Hone2 _ _ _ _ Hr' Hrow Hl eq_refl).
Qed.

Lemma release_notes_default_witness :
  (∀ hash, release_notes (buildVersionData Sample.github Sample.dmg13 Sample.release13 hash)
           = "Version v1.3.0")
  ∧ ∃ r, (processAsset Sample.github Sample.dmg13 Sample.release13 ∅).2
           !! ("1.3.0", "darwin", "x64") = Some r
         ∧ row_release_notes r = "Version v1.3.0".
Proof.
  destruct (release_notes_default Sample.github Sample.dmg13 Sample.release13)
    as [Hbuilt Hrow]; [by left|].
  split; [exact Hbuilt|].
  apply (Hrow ∅). vm_compute. reflexivity.
Defined.

Lemma fetchReleaseByTag_null_witness :
  fetchReleaseByTag Sample.github "v9.9.9" = Ok None
  ∧ syncReleaseToSupabase Sample.github Sample.manual ∅ =
      ({| exitCode := 1; failure := Some (ReleaseNotFound "v9.9.9") |}, ∅).
Proof.
  destruct (fetchReleaseByTag_null Sample.github "v9.9.9") as (Hnull & _ & Hjob).
  assert (fetchReleaseByTag Sample.github "v9.9.9" = Ok None) as H404.
  { apply Hnull. reflexivity. }
  split; [exact H404|].
  apply (Hjob Sample.manual ∅); [reflexivity .. | exact H404].
Defined.

Lemma processAsset_single_latest_witness :
  let db1 := (processAsset Sample.github Sample.dmg12 Sample.release12 ∅).2 in
  let db2 := (processAsset Sample.github Sample.dmg13 Sample.release13 db1).2 in
  single_latest db1
  ∧ ∃ r, db2 !! ("1.3.0", "darwin", "x64") = Some r
         ∧ row_is_latest r = true
         ∧ ∀ k r', db2 !! k = Some r' →
             key_platform k = "darwin" → key_architecture k = "x64" →
             row_is_latest r' = true → k = ("1.3.0", "darwin", "x64").
Proof.
  intros db1 db2.
  destruct (processAsset_single_latest Sample.github ∅ single_latest_empty)
    as [Hinv Htwo]; [reflexivity|].
  split; [apply Hinv|].
  apply (Htwo Sample.dmg12 Sample.release12 Sample.dmg13 Sample.release13 db1 db2);
    [reflexivity | reflexivity | vm_compute; reflexivity | vm_compute; reflexivity].
Defined.

(** * Further properties of the script *)

(** ** The asset filter and the platform *)

(** X1.  Exclusion comes first: a name that contains an excluded pattern, in
    any letter case, is rejected whatever else it contains. *)
Theorem isAppAsset_excluded (a : asset) (pat : string) :
  In (toLowerCase pat) excludedPatterns →
  occurs pat (a_name a) →
  isAppAsset a = false.
Proof.
  intros Hpat (x & y & Hname). unfold isAppAsset.
  assert (existsb (λ pattern, includes (toLowerCase (a_name a)) pattern) excludedPatterns
          = true) as ->; [|done].
  apply existsb_exists. exists (toLowerCase pat). split; [done|].
  rewrite Hname, !toLowerCase_app. apply includes_iff. by eexists _, _.
Qed.

Lemma isAppAsset_excluded_witness :
  isAppAsset {| a_name := "PhotoPick-1.3.0-x64.dmg.BlockMap"; a_id := 9;
                a_browser_download_url := ""; a_size := 1 |} = false.
Proof.
  apply (isAppAsset_excluded _ ".BlockMap").
  - simpl. auto.
  - by exists "PhotoPick-1.3.0-x64.dmg", "".
Defined.

(** X2.  [detectPlatform] answers one of four labels: [darwin] when the name
    contains [.dmg]; otherwise [win32] when it contains [.exe]; otherwise
    [linux] when it contains [.AppImage] or [.deb]; otherwise [unknown]. *)
Theorem detectPlatform_rules (fileName : string) :
  In (detectPlatform fileName) ["darwin"; "win32"; "linux"; "unknown"]
  ∧ (occurs ".dmg" fileName → detectPlatform fileName = "darwin")
  ∧ (¬ occurs ".dmg" fileName → occurs ".exe" fileName →
     detectPlatform fileName = "win32")
  ∧ (¬ occurs ".dmg" fileName → ¬ occurs ".exe" fileName →
     occurs ".AppImage" fileName ∨ occurs ".deb" fileName →
     detectPlatform fileName = "linux")
  ∧ (¬ occurs ".dmg" fileName → ¬ occurs ".exe" fileName →
     ¬ occurs ".AppImage" fileName → ¬ occurs ".deb" fileName →
     detectPlatform fileName = "unknown").
Proof.
  unfold detectPlatform. repeat split.
  - repeat match goal with |- context [includes ?s ?p] => destruct (includes s p) end;
      simpl; auto.
  - intros H%includes_iff. by rewrite H.
  - intros H1%includes_false H2%includes_iff. by rewrite H1, H2.
  - intros H1%includes_false H2%includes_false [H3%includes_iff | H3%includes_iff];
      rewrite H1, H2, H3; [done|]. by rewrite orb_true_r.
  - intros H1%includes_false H2%includes_false H3%includes_false H4%includes_false.
    by rewrite H1, H2, H3, H4.
Qed.

(** ** The job around the lookup *)

Lemma syncTry_lookup w e :
  defined (SUPABASE_URL e) = true → defined (SUPABASE_SERVICE_KEY e) = true →
  syncTry w e =
    let* rel := lift (lookupRelease w e) in
    match rel with
    | None => throw (ReleaseNotFound (interpolate (RELEASE_TAG e)))
    | Some rel => if r_draft rel then ret 0%nat else processAssets w rel (r_assets rel) 0
    end.
Proof. intros Hurl Hkey. unfold syncTry. by rewrite Hurl, Hkey. Qed.

(** X3.  The lookup by id never answers [null]: it returns the release exactly
    on an [ok] response and throws on any other, 404 included, and a job
    that takes it then ends with that API error and exit code 1, not with
    "Release not found". *)
Theorem fetchReleaseById_throws (w : world) (id : string) :
  (∀ rel, fetchReleaseById w id = Ok rel
          ↔ ok (releaseById w id) = true ∧ rel = payload (releaseById w id))
  ∧ (ok (releaseById w id) = false →
     fetchReleaseById w id =
       Throw (GitHubApiError (status (releaseById w id)) (statusText (releaseById w id))))
  ∧ ∀ (e : env) (db : table),
      defined (SUPABASE_URL e) = true → defined (SUPABASE_SERVICE_KEY e) = true →
      defined (RELEASE_ID e) = true → isManualTrigger e = false →
      interpolate (RELEASE_ID e) = id →
      status (releaseById w id) = 404 →
      syncReleaseToSupabase w e db =
        ({| exitCode := 1;
            failure := Some (GitHubApiError 404 (statusText (releaseById w id))) |}, db).
Proof.
  split; [|split].
  - intros rel. unfold fetchReleaseById.
    destruct (ok (releaseById w id)); simpl; [|by split; [|intros []]].
    split; [by intros [= <-] | by intros [_ ->]].
  - intros Hok. unfold fetchReleaseById. by rewrite Hok.
  - intros e db Hurl Hkey Hid Hauto Hint H404.
    unfold syncReleaseToSupabase. rewrite syncTry_lookup by done.
    unfold bind, lift, lookupRelease, fetchReleaseById, ok.
    by rewrite Hid, Hauto, Hint, H404.
Qed.

Lemma fetchReleaseById_throws_witness :
  syncReleaseToSupabase Sample.github Sample.automatic ∅ =
    ({| exitCode := 1; failure := Some (GitHubApiError 404 "Not Found") |}, ∅).
Proof.
  destruct (fetchReleaseById_throws Sample.github "77") as (_ & _ & Hjob).
  apply (Hjob Sample.automatic ∅); reflexivity.
Defined.



(** X5.  A draft release is skipped: the job ends with exit code 0 and writes
    nothing, whatever its assets. *)
Theorem sync_draft_skipped (w : world) (e : env) (db : table) (rel : release) :
  defined (SUPABASE_URL e) = true → defined (SUPABASE_SERVICE_KEY e) = true →
  lookupRelease w e = Ok (Some rel) →
  r_draft rel = true →
  syncReleaseToSupabase w e db = ({| exitCode := 0; failure := None |}, db).
Proof.
  intros Hurl Hkey Hrel Hdraft. unfold syncReleaseToSupabase.
  rewrite syncTry_lookup by done. unfold bind, lift, ret. by rewrite Hrel, Hdraft.
Qed.

Lemma sync_draft_skipped_witness :
  syncReleaseToSupabase (Sample.serving Sample.draft14) Sample.tagged13 ∅ =
    ({| exitCode := 0; failure := None |}, ∅).
Proof. by apply (sync_draft_skipped _ _ _ Sample.draft14). Defined.

Lemma processAssets_none w rel l n db :
  Forall (λ a, isAppAsset a = false) l → processAssets w rel l n db = (Ok n, db).
Proof.
  induction 1 as [|a l Ha _ IH]; [done|]. cbn [processAssets]. by rewrite Ha.
Qed.

(** X6.  A release none of whose assets passes the filter is no failure: the
    job ends with exit code 0 and writes nothing. *)
Theorem sync_no_app_assets (w : world) (e : env) (db : table) (rel : release) :
  defined (SUPABASE_URL e) = true → defined (SUPABASE_SERVICE_KEY e) = true →
  lookupRelease w e = Ok (Some rel) →
  Forall (λ a, isAppAsset a = false) (r_assets rel) →
  syncReleaseToSupabase w e db = ({| exitCode := 0; failure := None |}, db).
Proof.
  intros Hurl Hkey Hrel Hnone. unfold syncReleaseToSupabase.
  rewrite syncTry_lookup by done. unfold bind, lift, ret. rewrite Hrel.
  destruct (r_draft rel); [done|]. by rewrite processAssets_none.
Qed.

Lemma sync_no_app_assets_witness :
  syncReleaseToSupabase (Sample.serving Sample.notes13) Sample.tagged13 ∅ =
    ({| exitCode := 0; failure := None |}, ∅).
Proof.
  apply (sync_no_app_assets _ _ _ Sample.notes13); [reflexivity .. |].
  repeat constructor.
Defined.

Lemma processAssets_world w w' rel l n db :
  assetContent w' = assetContent w → now w' = now w →
  upsertError w' = upsertError w → updateFails w' = updateFails w →
  processAssets w' rel l n db = processAssets w rel l n db.
Proof.
  intros Hc Hn Hu Hf. revert n db. induction l as [|a l IH]; intros n db; [done|].
  cbn [processAssets]. destruct (isAppAsset a); [|apply IH].
  unfold bind.
  assert (processAsset w' a rel db = processAsset w a rel db) as ->.
  { unfold processAsset, getSHA512FromYml, buildVersionData, upsert, updateNotLatest.
    by rewrite Hc, Hn, Hu, Hf. }
  destruct (processAsset w a rel db) as [[[]|err] db1]; [apply IH | done].
Qed.

(** X7.  Only one lookup is made.  A manual run, or one without a release id,
    does not depend on what the lookup by id would answer; a run with a
    release id that is not manual does not depend on the lookup by tag. *)
Theorem sync_one_lookup (w : world) (e : env) (db : table)
    (f : string → response release) :
  (isManualTrigger e = true ∨ defined (RELEASE_ID e) = false →
   syncReleaseToSupabase (withReleaseById f w) e db = syncReleaseToSupabase w e db)
  ∧ (isManualTrigger e = false → defined (RELEASE_ID e) = true →
     syncReleaseToSupabase (withReleaseByTag f w) e db = syncReleaseToSupabase w e db).
Proof.
  split.
  - intros Htag.
    assert (defined (RELEASE_ID e) && negb (isManualTrigger e) = false) as Hroute.
    { destruct Htag as [-> | ->]; [apply andb_false_r | done]. }
    unfold syncReleaseToSupabase, syncTry, bind, lift. rewrite Hroute.
    destruct (negb _ || negb _); [done|].
    change (fetchReleaseByTag (withReleaseById f w)) with (fetchReleaseByTag w).
    destruct (fetchReleaseByTag w _) as [[rel|]|err]; [|done..].
    destruct (r_draft rel); [done|]. by rewrite (processAssets_world w).
  - intros Hauto Hid. unfold syncReleaseToSupabase, syncTry, bind, lift.
    rewrite Hid, Hauto. cbn [andb negb].
    destruct (negb _ || negb _); [done|].
    change (fetchReleaseById (withReleaseByTag f w)) with (fetchReleaseById w).
    destruct (fetchReleaseById w _) as [rel|err]; [|done].
    destruct (r_draft rel); [done|]. by rewrite (processAssets_world w).
Qed.

Lemma sync_one_lookup_witness :
  syncReleaseToSupabase (withReleaseById (λ _, Sample.missing Sample.release12)
                           Sample.github) Sample.manual13 ∅
  = syncReleaseToSupabase Sample.github Sample.manual13 ∅.
Proof.
  destruct (sync_one_lookup Sample.github Sample.manual13 ∅
              (λ _, Sample.missing Sample.release12)) as [Htag _].
  apply Htag. by left.
Defined.

(** ** More on the hash resolver *)

Lemma find_no_match {A} (f : A → bool) (l : list A) :
  Forall (λ x, f x = false) l → find f l = None.
Proof. induction 1 as [|x l Hx _ IH]; [done|]. simpl. by rewrite Hx. Qed.

(** X8.  The manifest is looked for under a name made for macOS, whatever the
    platform of the asset: [latest-arm64-mac.yml] when the name of the
    asset contains [arm64], [latest-x64-mac.yml] otherwise.  When the
    release has no asset of that name the resolver fails with "SHA512 not
    found", and [processAsset] throws it without writing, whatever GitHub
    and Supabase would answer. *)
Theorem getSHA512FromYml_no_manifest (w : world) (a : asset) (rel : release) :
  Forall (λ a', a_name a' ≠ manifestName (a_name a)) (r_assets rel) →
  getSHA512FromYml w a rel = Throw (Sha512NotFound (a_name a))
  ∧ ∀ db, processAsset w a rel db = (Throw (Sha512NotFound (a_name a)), db).
Proof.
  intros Hnone.
  assert (getSHA512FromYml w a rel = Throw (Sha512NotFound (a_name a))) as Hthrow.
  { unfold getSHA512FromYml. rewrite find_no_match; [done|].
    eapply Forall_impl; [exact Hnone|]. intros a' Ha'. by apply bool_decide_eq_false_2. }
  split; [done|]. intros db. unfold processAsset, bind, lift. by rewrite Hthrow.
Qed.

Lemma getSHA512FromYml_no_manifest_witness :
  getSHA512FromYml Sample.github Sample.exe13 Sample.windows13
    = Throw (Sha512NotFound "PhotoPick-Setup-1.3.0.exe")
  ∧ ∀ db, processAsset Sample.github Sample.exe13 Sample.windows13 db
          = (Throw (Sha512NotFound "PhotoPick-Setup-1.3.0.exe"), db).
Proof.
  apply (getSHA512FromYml_no_manifest Sample.github Sample.exe13 Sample.windows13).
  repeat constructor. done.
Defined.

(** A hash found by the loop is a trimmed piece of a line. *)
Lemma scanLines_Ok_trim assetName lines hash :
  scanLines assetName lines = Ok hash → ∃ piece, hash = trim piece.
Proof.
  induction lines as [|line rest IH]; [done|]. cbn [scanLines].
  destruct (includes line ("url: " +:+ assetName)); [|done].
  destruct rest as [|next rest]; [done|].
  destruct (includes next "sha512:"); [|done].
  destruct (split "sha512:" next !! 1%nat) as [piece|]; [|done].
  intros [= <-]. by exists piece.
Qed.


(** X10.  A hash that the resolver returns has white space at neither end. *)
Theorem sha512_trimmed (w : world) (a : asset) (rel : release) (hash : string) :
  getSHA512FromYml w a rel = Ok hash → trimmed hash.
Proof.
  unfold getSHA512FromYml.
  destruct (find _ (r_assets rel)) as [ymlAsset|]; [|done].
  destruct (ok (assetContent w (a_id ymlAsset))); simpl; [|done].
  intros [piece ->]%scanLines_Ok_trim. apply trim_clean.
Qed.

Lemma sha512_trimmed_witness : trimmed "aGFzaDEz==".
Proof. by apply (sha512_trimmed Sample.github Sample.dmg13 Sample.release13). Defined.

Lemma blank_no_marker b : blank b = true → includes b "sha512:" = false.
Proof.
  induction b as [|c b IH]; [done|]. cbn [blank includes].
  intros [Hc Hb]%andb_true_iff. rewrite (IH Hb).
  change (startsWith "sha512:" (String c b))
    with (if Ascii.eqb "s" c then startsWith "ha512:" b else false).
  destruct (Ascii.eqb_spec "s" c) as [<-|]; done.
Qed.

Lemma blank_trim b : blank b = true → trim b = "".
Proof.
  unfold trim. induction b as [|c b IH]; [done|]. cbn [blank trimStart].
  intros [-> Hb]%andb_true_iff. by apply IH.
Qed.

(** X11.  A marker followed by white space only is accepted: the resolver
    returns the empty hash instead of failing. *)
Theorem sha512_blank_accepted
    (assetName content : string) (pre : list string) (line next : string)
    (rest : list string) (a b : string) :
  split LF content = pre ++ line :: next :: rest →
  Forall (λ l, includes l ("url: " +:+ assetName) = false) pre →
  includes line ("url: " +:+ assetName) = true →
  first_occurrence "sha512:" next a b →
  blank b = true →
  sha512FromContent assetName content = Ok "".
Proof.
  intros Hlines Hpre Hurl Hfirst Hblank. unfold sha512FromContent.
  rewrite Hlines, scanLines_skip, (scanLines_hit _ _ _ _ a b) by done.
  rewrite (proj2 (cut_None "sha512:" b) (blank_no_marker b Hblank)).
  by rewrite blank_trim.
Qed.

Lemma sha512_blank_accepted_witness :
  sha512FromContent "app.dmg" ("  - url: app.dmg" +:+ LF +:+ "    sha512:  " +:+ LF)
    = Ok "".
Proof.
  apply (sha512_blank_accepted "app.dmg" _ [] "  - url: app.dmg" "    sha512:  " [""]
           "    " "  ").
  - reflexivity.
  - constructor.
  - reflexivity.
  - apply cut_Some. reflexivity.
  - reflexivity.
Defined.

Lemma hashed_url_at_S assetName line rest i :
  hashed_url_at assetName (line :: rest) (S i) ↔ hashed_url_at assetName rest i.
Proof. reflexivity. Qed.

(** X12.  The first url line that is followed by a [sha512:] line gives the
    hash, however many url lines without one come before it. *)
Theorem scanLines_first_hit (assetName : string) (lines : list string) (i : nat)
    (next : string) :
  (∀ j, (j < i)%nat → ¬ hashed_url_at assetName lines j) →
  hashed_url_at assetName lines i →
  lines !! S i = Some next →
  ∃ piece, split "sha512:" next !! 1%nat = Some piece
           ∧ scanLines assetName lines = Ok (trim piece).
Proof.
  revert lines. induction i as [|i IH]; intros lines Hbefore Hat Hnext.
  - destruct Hat as (l & l' & Hl & Hl' & Hurl & Hsha).
    destruct lines as [|line [|next' rest]]; try done.
    injection Hl as ->. injection Hl' as ->. injection Hnext as ->.
    destruct (cut_includes _ _ Hsha) as (a & b & Hcut%cut_Some).
    exists (match cut "sha512:" b with Some (m, _) => m | None => b end).
    split; [by apply (split_marker_second _ a) | by apply (scanLines_hit _ _ _ _ a)].
  - destruct lines as [|line rest].
    { destruct Hat as (l & _ & Hl & _). by rewrite lookup_nil in Hl. }
    rewrite scanLines_miss by (apply Hbefore; lia).
    apply IH; [|done..].
    intros j Hj Hatj. apply (Hbefore (S j)); [lia | done].
Qed.

Lemma scanLines_first_hit_witness :
  ∃ piece, split "sha512:" "sha512: XYZ" !! 1%nat = Some piece
           ∧ scanLines "app.exe"
               ["url: app.exe"; "size: 10"; "url: app.exe"; "sha512: XYZ"]
             = Ok (trim piece).
Proof.
  apply (scanLines_first_hit "app.exe" _ 2).
  - intros [|[|j]] Hj (l & l' & Hl & Hl' & Hurl & Hsha); [| |lia].
    + injection Hl' as <-. discriminate Hsha.
    + injection Hl as <-. discriminate Hurl.
  - by exists "url: app.exe", "sha512: XYZ".
  - reflexivity.
Defined.

(** ** More on the persistence writer *)

(** The table after a [processAsset] that found its hash and whose upsert
    went through. *)
Lemma processAsset_Ok w a rel db hash :
  getSHA512FromYml w a rel = Ok hash →
  upsertError w (buildVersionData w a rel hash) = None →
  processAsset w a rel db =
    (Ok tt,
     if updateFails w (written_key a rel)
     then <[written_key a rel := row_of (buildVersionData w a rel hash)]> db
     else demoteOthers (written_key a rel)
            (<[written_key a rel := row_of (buildVersionData w a rel hash)]> db)).
Proof.
  intros Hhash Hup.
  destruct (processAsset_cases w a rel db) as [[e He]|(hash' & Hhash' & _ & Hok)].
  - exfalso. revert He. unfold processAsset, bind, lift, upsert, throw, updateNotLatest.
    rewrite Hhash. cbv zeta. rewrite Hup. by destruct (updateFails w _).
  - rewrite Hhash in Hhash'. by injection Hhash' as <-.
Qed.

(** A run that ends well, with the table it leaves. *)
Lemma run_Ok (x : result unit * table) : x.1 = Ok tt → x = (Ok tt, x.2).
Proof. destruct x as [[[]|e] db]; simpl; [done | discriminate]. Qed.

Lemma demote_demote r : demote (demote r) = demote r.
Proof. reflexivity. Qed.

Lemma demoteOthers_written k r db :
  demoteOthers k (<[k := r]> (demoteOthers k (<[k := r]> db)))
  = demoteOthers k (<[k := r]> db).
Proof.
  apply map_eq. intros k'. rewrite !lookup_demoteOthers.
  destruct (decide (k = k')) as [<-|Hne].
  - by rewrite !lookup_insert_eq.
  - rewrite !lookup_insert_ne by done. rewrite lookup_demoteOthers, lookup_insert_ne by done.
    destruct (db !! k') as [r0|]; [|done]. cbn [fmap option_fmap option_map].
    by destruct (selected _ _ _ k').
Qed.

(** X13.  Processing an asset again changes nothing: a second [processAsset]
    for the same asset and release succeeds and leaves the table it
    finds, whether the updates are carried out or not. *)
Theorem processAsset_idempotent (w : world) (a : asset) (rel : release)
    (db db1 : table) :
  processAsset w a rel db = (Ok tt, db1) →
  processAsset w a rel db1 = (Ok tt, db1).
Proof.
  intros Hrun.
  destruct (processAsset_cases w a rel db) as [[e He]|(hash & Hhash & Hup & Hok)];
    [congruence|].
  rewrite Hok in Hrun. injection Hrun as <-.
  rewrite (processAsset_Ok w a rel _ hash Hhash Hup). f_equal.
  destruct (updateFails w (written_key a rel)).
  - apply insert_insert_eq.
  - apply demoteOthers_written.
Qed.

Lemma processAsset_idempotent_witness :
  let db1 := (processAsset Sample.github Sample.dmg13 Sample.release13 ∅).2 in
  processAsset Sample.github Sample.dmg13 Sample.release13 db1 = (Ok tt, db1).
Proof.
  intros db1.
  apply (processAsset_idempotent Sample.github Sample.dmg13 Sample.release13 ∅).
  apply run_Ok. vm_compute. reflexivity.
Defined.

(** X14.  What [processAsset] leaves alone.  Rows of another platform or
    architecture are as before; any row but the written one is as before
    or has lost [is_latest] and nothing else; and no row is removed. *)
Theorem processAsset_frame (w : world) (a : asset) (rel : release) (db : table)
    (k : version_key) :
  (key_platform k ≠ detectPlatform (a_name a)
   ∨ key_architecture k ≠ detectArchitecture (a_name a) →
   (processAsset w a rel db).2 !! k = db !! k)
  ∧ (k ≠ written_key a rel →
     (processAsset w a rel db).2 !! k = db !! k
     ∨ (processAsset w a rel db).2 !! k = demote <$> db !! k)
  ∧ (is_Some (db !! k) → is_Some ((processAsset w a rel db).2 !! k)).
Proof.
  destruct (processAsset_cases w a rel db) as [[e ->]|(hash & _ & _ & ->)];
    [by repeat split; auto|].
  cbn [snd]. destruct (updateFails w (written_key a rel)).
  - split; [|split].
    + intros Hpair. apply lookup_insert_ne. intros <-. by destruct Hpair.
    + intros Hne. left. by apply lookup_insert_ne.
    + intros Hsome. rewrite lookup_insert. by case_decide.
  - split; [|split].
    + intros Hpair. rewrite lookup_demoteOthers, lookup_insert_ne
        by (intros <-; by destruct Hpair).
      destruct (db !! k) as [r|]; [|done]. cbn [fmap option_fmap option_map].
      unfold selected, written_key, key_platform, key_architecture in *. simpl in *.
      destruct Hpair as [Hp|Ha].
      * by rewrite (bool_decide_eq_false_2 _ Hp).
      * rewrite (bool_decide_eq_false_2 _ Ha). by rewrite andb_false_r.
    + intros Hne. rewrite lookup_demoteOthers, lookup_insert_ne by done.
      destruct (db !! k) as [r|]; [|by left]. cbn [fmap option_fmap option_map].
      destruct (selected _ _ _ k); [by right | by left].
    + intros Hsome. rewrite lookup_demoteOthers, lookup_insert.
      case_decide; [done|]. by apply fmap_is_Some.
Qed.

(** X15.  The outcome of the update is not looked at.  When it is lost,
    [processAsset] still succeeds, and a row of the same platform and
    architecture that was the latest under another version stays so beside
    the new one: the table has two latest rows for the pair. *)
Theorem processAsset_update_lost (w : world) (a : asset) (rel : release)
    (db db1 : table) (k : version_key) (r : row) :
  updateFails w (written_key a rel) = true →
  processAsset w a rel db = (Ok tt, db1) →
  db !! k = Some r → row_is_latest r = true →
  key_platform k = detectPlatform (a_name a) →
  key_architecture k = detectArchitecture (a_name a) →
  k ≠ written_key a rel →
  db1 !! k = Some r
  ∧ (∃ r1, db1 !! written_key a rel = Some r1 ∧ row_is_latest r1 = true)
  ∧ ¬ single_latest db1.
Proof.
  intros Hlost Hrun Hk Hlatest Hp Ha Hne.
  destruct (processAsset_cases w a rel db) as [[e He]|(hash & _ & _ & Hok)];
    [congruence|].
  rewrite Hok, Hlost in Hrun. injection Hrun as <-.
  assert (<[written_key a rel:=row_of (buildVersionData w a rel hash)]> db !! k = Some r)
    as Hold by (by rewrite lookup_insert_ne).
  split; [done|]. split.
  - eexists. by rewrite lookup_insert_eq.
  - intros Hone. apply Hne.
    eapply (Hone k (written_key a rel)); [exact Hold | apply lookup_insert_eq | done..].
Qed.

Lemma processAsset_update_lost_witness :
  let db := (processAsset Sample.github Sample.dmg12 Sample.release12 ∅).2 in
  let db1 := (processAsset Sample.lossy Sample.dmg13 Sample.release13 db).2 in
  (∃ r, db1 !! ("1.2.0", "darwin", "x64") = Some r ∧ row_is_latest r = true)
  ∧ (∃ r1, db1 !! ("1.3.0", "darwin", "x64") = Some r1 ∧ row_is_latest r1 = true)
  ∧ ¬ single_latest db1.
Proof.
  intros db db1.
  assert (processAsset Sample.github Sample.dmg12 Sample.release12 ∅ = (Ok tt, db))
    as Hrun by (apply run_Ok; vm_compute; reflexivity).
  assert (processAsset Sample.lossy Sample.dmg13 Sample.release13 db = (Ok tt, db1))
    as Hrun1 by (apply run_Ok; vm_compute; reflexivity).
  destruct (processAsset_written _ _ _ _ _ Hrun) as [hash Hrow].
  assert (("1.2.0", "darwin", "x64") ≠ written_key Sample.dmg13 Sample.release13)
    as Hne by (vm_compute; discriminate).
  destruct (processAsset_update_lost Sample.lossy Sample.dmg13 Sample.release13 db db1
              ("1.2.0", "darwin", "x64")
              (row_of (buildVersionData Sample.github Sample.dmg12 Sample.release12 hash))
              eq_refl Hrun1 Hrow eq_refl eq_refl eq_refl Hne)
    as (Hold & Hnew & Hbroken).
  split; [|exact (conj Hnew Hbroken)].
  exists (row_of (buildVersionData Sample.github Sample.dmg12 Sample.release12 hash)).
  exact (conj Hold eq_refl).
Defined.

Lemma syncReleaseToSupabase_single_latest_witness :
  single_latest (syncReleaseToSupabase Sample.github Sample.tagged13 ∅).2.
Proof.
  apply syncReleaseToSupabase_keeps_single_latest; [reflexivity|].
  apply single_latest_empty.
Defined.

(** ** The loop over the assets *)

(** The loop over a list of assets in two parts. *)
Lemma processAssets_append w rel l1 l2 n db :
  processAssets w rel (l1 ++ l2) n db =
    match processAssets w rel l1 n db with
    | (Ok m, db1) => processAssets w rel l2 m db1
    | (Throw e, db1) => (Throw e, db1)
    end.
Proof.
  revert n db. induction l1 as [|a l1 IH]; intros n db; [done|].
  rewrite <- app_comm_cons. cbn [processAssets].
  destruct (isAppAsset a); [|apply IH]. unfold bind.
  destruct (processAsset w a rel db) as [[[]|e] db1]; [apply IH | done].
Qed.

Lemma processAsset_Throw w a rel db e :
  (processAsset w a rel db).1 = Throw e → processAsset w a rel db = (Throw e, db).
Proof.
  destruct (processAsset_cases w a rel db) as [[e' ->]|(hash & _ & _ & ->)]; [|done].
  by intros [= ->].
Qed.

(** X17.  There is no isolation between assets and no rollback: the first
    accepted asset whose processing throws ends the job with that error
    and exit code 1, the assets after it are not processed, and what the
    assets before it wrote stays in the table. *)
Theorem sync_aborts_at_first_failure (w : world) (e : env) (db : table)
    (rel : release) (before : list asset) (a : asset) (after : list asset)
    (m : nat) (err : error) :
  defined (SUPABASE_URL e) = true → defined (SUPABASE_SERVICE_KEY e) = true →
  lookupRelease w e = Ok (Some rel) → r_draft rel = false →
  r_assets rel = before ++ a :: after →
  (processAssets w rel before 0 db).1 = Ok m →
  isAppAsset a = true →
  (processAsset w a rel (processAssets w rel before 0 db).2).1 = Throw err →
  syncReleaseToSupabase w e db =
    ({| exitCode := 1; failure := Some err |}, (processAssets w rel before 0 db).2).
Proof.
  intros Hurl Hkey Hrel Hdraft Hassets Hbefore Happ Hthrow.
  unfold syncReleaseToSupabase. rewrite syncTry_lookup by done.
  unfold bind, lift. rewrite Hrel, Hdraft, Hassets, processAssets_append.
  destruct (processAssets w rel before 0 db) as [[m'|e'] db1]; [|done].
  cbn [processAssets]. rewrite Happ. unfold bind.
  simpl in Hthrow. by rewrite (processAsset_Throw _ _ _ _ _ Hthrow).
Qed.

Lemma sync_aborts_at_first_failure_witness :
  let db1 := (processAssets (Sample.serving Sample.mixed13) Sample.mixed13
                [Sample.dmg13; Sample.yml13] 0 ∅).2 in
  syncReleaseToSupabase (Sample.serving Sample.mixed13) Sample.tagged13 ∅ =
    ({| exitCode := 1;
        failure := Some (Sha512NotFound "PhotoPick-Setup-1.3.0.exe") |}, db1)
  ∧ is_Some (db1 !! ("1.3.0", "darwin", "x64")).
Proof.
  intros db1. split.
  - apply (sync_aborts_at_first_failure _ _ _ Sample.mixed13
             [Sample.dmg13; Sample.yml13] Sample.exe13 [] 1);
      try reflexivity; vm_compute; reflexivity.
  - vm_compute. by eexists.
Defined.

(** A row of the release being processed that is the latest stays so
    when another asset of the release is processed. *)
Lemma processAsset_keeps_release_row w a rel db db1 k :
  processAsset w a rel db = (Ok tt, db1) →
  key_version k = replace "v" "" (r_tag_name rel) →
  (∃ r, db !! k = Some r ∧ row_is_latest r = true ∧ row_github_release_id r = r_id rel) →
  ∃ r, db1 !! k = Some r ∧ row_is_latest r = true ∧ row_github_release_id r = r_id rel.
Proof.
  intros Hrun Hversion (r & Hr & Hlatest & Hid).
  destruct (decide (k = written_key a rel)) as [->|Hne].
  { destruct (processAsset_written _ _ _ _ _ Hrun) as [hash Hrow]. by eexists. }
  destruct (processAsset_cases w a rel db) as [[e He]|(hash & _ & _ & Hok)];
    [congruence|].
  rewrite Hok in Hrun. injection Hrun as <-. exists r. split; [|done].
  destruct (updateFails w (written_key a rel)).
  - by rewrite lookup_insert_ne.
  - rewrite lookup_demoteOthers, lookup_insert_ne, Hr by done.
    cbn [fmap option_fmap option_map]. unfold selected.
    rewrite (bool_decide_eq_true_2 (key_version k = _)) by done.
    by rewrite andb_false_r.
Qed.

Lemma processAssets_keep_release_row w rel l n db k :
  (∃ m, (processAssets w rel l n db).1 = Ok m) →
  key_version k = replace "v" "" (r_tag_name rel) →
  (∃ r, db !! k = Some r ∧ row_is_latest r = true ∧ row_github_release_id r = r_id rel) →
  ∃ r, (processAssets w rel l n db).2 !! k = Some r
       ∧ row_is_latest r = true ∧ row_github_release_id r = r_id rel.
Proof.
  revert n db. induction l as [|a l IH]; intros n db Hok Hversion Hrow; [done|].
  revert Hok. cbn [processAssets]. destruct (isAppAsset a); [|by intros; apply IH].
  unfold bind. destruct (processAsset w a rel db) as [[[]|e] db1] eqn:Hrun.
  - intros Hok. apply IH; [done..|]. by eapply processAsset_keeps_release_row.
  - by intros [m [=]].
Qed.

Lemma processAssets_rows w rel l n db a :
  (∃ m, (processAssets w rel l n db).1 = Ok m) →
  In a l → isAppAsset a = true →
  ∃ r, (processAssets w rel l n db).2 !! written_key a rel = Some r
       ∧ row_is_latest r = true ∧ row_github_release_id r = r_id rel.
Proof.
  revert n db. induction l as [|b l IH]; intros n db Hok Hin Happ; [done|].
  revert Hok. cbn [processAssets]. destruct Hin as [->|Hin].
  - rewrite Happ. unfold bind.
    destruct (processAsset w a rel db) as [[[]|e] db1] eqn:Hrun; [|by intros [m [=]]].
    intros Hok. apply processAssets_keep_release_row; [done..|].
    destruct (processAsset_written _ _ _ _ _ Hrun) as [hash Hrow]. by eexists.
  - destruct (isAppAsset b); [|by intros; apply IH]. unfold bind.
    destruct (processAsset w b rel db) as [[[]|e] db1]; [|by intros [m [=]]].
    intros Hok. by apply IH.
Qed.

(** X18.  When the job ends with exit code 0 on a release that is no draft,
    every asset of the release that the filter accepts has a row under its
    key that is marked the latest and carries the id of the release,
    whether the updates were carried out or not. *)
Theorem sync_success_rows (w : world) (e : env) (db : table) (rel : release)
    (a : asset) :
  defined (SUPABASE_URL e) = true → defined (SUPABASE_SERVICE_KEY e) = true →
  lookupRelease w e = Ok (Some rel) → r_draft rel = false →
  exitCode (syncReleaseToSupabase w e db).1 = 0 →
  In a (r_assets rel) → isAppAsset a = true →
  ∃ r, (syncReleaseToSupabase w e db).2 !! written_key a rel = Some r
       ∧ row_is_latest r = true ∧ row_github_release_id r = r_id rel.
Proof.
  intros Hurl Hkey Hrel Hdraft. unfold syncReleaseToSupabase.
  rewrite syncTry_lookup by done. unfold bind, lift. rewrite Hrel, Hdraft.
  intros Hexit Hin Happ.
  pose proof (processAssets_rows w rel (r_assets rel) 0 db a) as Hrows.
  destruct (processAssets w rel (r_assets rel) 0 db) as [[m|err] db'];
    [|discriminate Hexit].
  apply Hrows; [by exists m | done..].
Qed.

Lemma sync_success_rows_witness :
  ∃ r, (syncReleaseToSupabase Sample.github Sample.tagged13 ∅).2
         !! ("1.3.0", "darwin", "x64") = Some r
       ∧ row_is_latest r = true ∧ row_github_release_id r = 2.
Proof.
  apply (sync_success_rows Sample.github Sample.tagged13 ∅ Sample.release13 Sample.dmg13).
  - reflexivity.
  - reflexivity.
  - reflexivity.
  - reflexivity.
  - vm_compute. reflexivity.
  - by left.
  - reflexivity.
Defined.

(** X19.  The version that is written: the tag without its first [v].  For a
    tag that starts with [v] that is the rest of the tag, and a tag without
    any [v] is kept as it is. *)
Theorem version_of_tag (w : world) (a : asset) (rel : release) (hash : string) :
  (∀ x y, first_occurrence "v" (r_tag_name rel) x y →
          version (buildVersionData w a rel hash) = x +:+ y)
  ∧ (∀ t, r_tag_name rel = String "v" t → version (buildVersionData w a rel hash) = t)
  ∧ (¬ occurs "v" (r_tag_name rel) →
     version (buildVersionData w a rel hash) = r_tag_name rel).
Proof.
  cbn [version buildVersionData]. split; [|split].
  - apply replace_v_first.
  - intros t ->. apply replace_v_leading.
  - apply replace_v_absent.
Qed.
